(** * convolve2D: the hand-written convolutional filter of
      notebooks/unused/03a-example-convolutional-networks.ipynb

    The routine is embedded as a program of a small state-and-exception
    monad over a store of numpy arrays.  Array elements are exact rationals
    ([Q]): rounding, overflow and NaN of IEEE doubles are outside this model.
    Integers are Python integers ([Z]); [Z.div] is floor division, as [//]. *)

From Stdlib Require Import QArith Qminmax ZArith Lia.
From stdpp Require Import base list strings.
From Stdlib Require Import DecimalString.

Local Open Scope Z_scope.

(** ** Exceptions and results *)

(** The Python exceptions the routine can raise.  [ValueError] is split by
    the place that raises it. *)
Inductive exn : Type :=
| ZeroDivisionError        (* integer division or modulo by zero *)
| IndexError               (* tuple index / array index out of range *)
| NegativeDimensions       (* ValueError: negative dimensions are not allowed *)
| ShapeMismatch            (* ValueError: shape-mismatch for sum (tensordot) *)
| BroadcastError           (* ValueError: could not broadcast input array *)
| KernelRank.              (* the kernel is not a matrix: outside the model *)

Inductive result (A : Type) : Type :=
| Ok (a : A)
| Err (e : exn).
Arguments Ok {A} a.
Arguments Err {A} e.

Definition raises {A} (r : result A) : Prop := ∃ e, r = Err e.

(** ** Arrays *)

(** A matrix and a rank-3 array: the [shape] tuple and the nested rows.
    The shape is kept apart from the data, as numpy does: an array of shape
    (0, 5, 3) has no row but still five columns and three channels. *)
Record array2 : Type := Array2 { shape2 : nat * nat; data2 : list (list Q) }.
Record array3 : Type :=
  Array3 { shape3 : nat * nat * nat; data3 : list (list (list Q)) }.

Inductive ndarray : Type :=
| Nd2 (a : array2)
| Nd3 (a : array3).

(** The data invariant of a numpy array: the data fills the shape. *)
Definition wf2 (a : array2) : Prop :=
  length (data2 a) = (shape2 a).1 ∧
  Forall (λ row, length row = (shape2 a).2) (data2 a).

Definition wf3 (a : array3) : Prop :=
  length (data3 a) = (shape3 a).1.1 ∧
  Forall (λ row, length row = (shape3 a).1.2 ∧
                 Forall (λ px, length px = (shape3 a).2) row) (data3 a).

(** [a[i, j, ch]] and [a[i, j, :]] for indices inside the array. *)
Definition getpx (a : array3) (i j : nat) : option (list Q) :=
  data3 a !! i ≫= (.!! j).
Definition get3 (a : array3) (i j ch : nat) : option Q :=
  getpx a i j ≫= (.!! ch).

(** [np.zeros((n0, n1, n2))] once the dimensions are known to be natural. *)
Definition zeros3 (n0 n1 n2 : nat) : array3 :=
  {| shape3 := (n0, n1, n2);
     data3 := replicate n0 (replicate n1 (replicate n2 0%Q)) |}.

(** ** Python slices *)

(** Bounds of [lo:hi] on an axis of length [len] (step 1): a negative bound
    counts from the end, and both are clipped to the axis. *)
Definition adjust_index (i len : Z) : Z :=
  if i <? 0 then Z.max (i + len) 0 else Z.min i len.

Definition slice_start (lo : Z) (n : nat) : nat :=
  Z.to_nat (adjust_index lo (Z.of_nat n)).
Definition slice_len (lo hi : Z) (n : nat) : nat :=
  Z.to_nat (adjust_index hi (Z.of_nat n) - adjust_index lo (Z.of_nat n)).

Definition py_slice {A} (lo hi : Z) (l : list A) : list A :=
  take (slice_len lo hi (length l)) (drop (slice_start lo (length l)) l).

(** The view [a[lo0:hi0, lo1:hi1, :]]. *)
Definition slice3 (a : array3) (lo0 hi0 lo1 hi1 : Z) : array3 :=
  let '(n0, n1, n2) := shape3 a in
  {| shape3 := (slice_len lo0 hi0 n0, slice_len lo1 hi1 n1, n2);
     data3 := map (py_slice lo1 hi1) (py_slice lo0 hi0 (data3 a)) |}.

(** [dst[lo0:hi0, lo1:hi1, :] = src].  Cell (i, j) of the region takes pixel
    (i - start0, j - start1) of [src].  numpy would also broadcast unit axes
    of [src]; that is not modelled, the one call site passes equal shapes
    (lemma [pad_assign_ok]). *)
Definition assign_slice3 (dst : array3) (lo0 hi0 lo1 hi1 : Z) (src : array3)
  : result array3 :=
  let '(n0, n1, _) := shape3 dst in
  let a0 := slice_start lo0 n0 in
  let a1 := slice_start lo1 n1 in
  let b0 := (a0 + slice_len lo0 hi0 n0)%nat in
  let b1 := (a1 + slice_len lo1 hi1 n1)%nat in
  if decide (shape3 (slice3 dst lo0 hi0 lo1 hi1) = shape3 src) then
    Ok {| shape3 := shape3 dst;
          data3 :=
            imap (λ i row,
                    if bool_decide (a0 ≤ i < b0)%nat then
                      imap (λ j px,
                              if bool_decide (a1 ≤ j < b1)%nat then
                                default px (getpx src (i - a0) (j - a1))
                              else px) row
                    else row) (data3 dst) |}
  else Err BroadcastError.

(** An integer index on an axis of length [n]: negative indices count from
    the end; [None] is numpy's IndexError. *)
Definition norm_index (i : Z) (n : nat) : option nat :=
  let j := if i <? 0 then i + Z.of_nat n else i in
  if bool_decide (0 ≤ j < Z.of_nat n) then Some (Z.to_nat j) else None.

(** [a[ix, iy, :] = v] for a vector [v]. *)
Definition setitem3 (a : array3) (ix iy : Z) (v : list Q) : result array3 :=
  let '(n0, n1, n2) := shape3 a in
  match norm_index ix n0, norm_index iy n1 with
  | Some i, Some j =>
      if decide (length v = n2) then
        Ok {| shape3 := shape3 a; data3 := alter (<[j:=v]>) i (data3 a) |}
      else Err BroadcastError
  | _, _ => Err IndexError
  end.

(** ** tensordot *)

Definition Qsum (l : list Q) : Q := fold_left Qplus l 0%Q.

(** [np.dot] of a row vector of length K with a K x n matrix. *)
Definition dot (at_ : list Q) (bt : list (list Q)) (n : nat) : list Q :=
  map (λ ch, Qsum (zip_with (λ x px, (x * nth ch px 0)%Q) at_ bt)) (seq 0 n).

(** [np.tensordot(a, b, axes=2)] for a matrix [a] and a rank-3 [b]: the two
    axes of [a] must equal the first two of [b]; [a] is reshaped to
    (1, k0*k1), [b] to (k0*k1, n), and the result is their product. *)
Definition tensordot (a : array2) (b : array3) : result (list Q) :=
  let '(k0, k1) := shape2 a in
  let '(r, c, n) := shape3 b in
  if decide (k0 = r ∧ k1 = c) then
    Ok (dot (concat (data2 a)) (concat (data3 b)) n)
  else Err ShapeMismatch.

(** ** Elementwise maximum and minimum with a scalar *)

Definition map3 (f : Q → Q) (a : array3) : array3 :=
  {| shape3 := shape3 a; data3 := map (map (map f)) (data3 a) |}.

Definition maximum (a : array3) (c : Q) : array3 := map3 (λ x, Qmax x c) a.
Definition minimum (a : array3) (c : Q) : array3 := map3 (λ x, Qmin x c) a.

(** ** The store and the monad *)

(** An array object lives in a cell of the store; a variable of the program
    holds the location of its array, so [padded_image = input_image] makes
    two names of one cell.  Cells are never freed. *)
Abbreviation loc := nat.
Abbreviation heap := (list ndarray).

Definition M (A : Type) : Type := heap → result A * heap.

Definition ret {A} (a : A) : M A := λ h, (Ok a, h).
Definition raise {A} (e : exn) : M A := λ h, (Err e, h).
Definition bind {A B} (m : M A) (k : A → M B) : M B :=
  λ h, match m h with
       | (Ok a, h') => k a h'
       | (Err e, h') => (Err e, h')
       end.
Definition lift {A} (r : result A) : M A := λ h, (r, h).

Notation "'let*' x ':=' m 'in' k" := (bind m (λ x, k))
  (at level 10, x name, m at level 100, k at level 200).
Notation "'run*' m 'in' k" := (bind m (λ _, k))
  (at level 10, m at level 100, k at level 200).

Definition alloc (v : ndarray) : M loc := λ h, (Ok (length h), h ++ [v]).
Definition store (l : loc) (v : ndarray) : M unit := λ h, (Ok tt, <[l:=v]> h).

(** Reading a rank-3 array; on a matrix, [.shape[2]] raises IndexError. *)
Definition load3 (l : loc) : M array3 :=
  λ h, match h !! l with
       | Some (Nd3 a) => (Ok a, h)
       | _ => (Err IndexError, h)
       end.
Definition load2 (l : loc) : M array2 :=
  λ h, match h !! l with
       | Some (Nd2 a) => (Ok a, h)
       | _ => (Err KernelRank, h)
       end.

Fixpoint for_ {A} (l : list A) (body : A → M unit) : M unit :=
  match l with
  | [] => ret tt
  | x :: l' => run* body x in for_ l' body
  end.

(** ** numpy calls of the routine *)

Definition np_zeros (n0 n1 n2 : Z) : M loc :=
  if bool_decide (0 ≤ n0 ∧ 0 ≤ n1 ∧ 0 ≤ n2) then
    alloc (Nd3 (zeros3 (Z.to_nat n0) (Z.to_nat n1) (Z.to_nat n2)))
  else raise NegativeDimensions.

Definition floordiv (a b : Z) : M Z :=
  if b =? 0 then raise ZeroDivisionError else ret (a / b).

Definition arange (n : Z) : list Z := map Z.of_nat (seq 0 (Z.to_nat n)).

(** [dst[lo0:hi0, lo1:hi1, :] = src] on the store. *)
Definition setslice (dst : loc) (lo0 hi0 lo1 hi1 : Z) (src : loc) : M unit :=
  let* d := load3 dst in
  let* s := load3 src in
  let* d' := lift (assign_slice3 d lo0 hi0 lo1 hi1 s) in
  store dst (Nd3 d').

(** [np.maximum(a, c)] and [np.minimum(a, c)] return a new array. *)
Definition np_maximum (a : loc) (c : Q) : M loc :=
  let* x := load3 a in alloc (Nd3 (maximum x c)).
Definition np_minimum (a : loc) (c : Q) : M loc :=
  let* x := load3 a in alloc (Nd3 (minimum x c)).

(** ** convolve2D *)

(** One pass of the inner loop body:
    [output_image[ix_out, iy_out, :] =
       np.tensordot(kernel, padded_image[ix_in:ix_in+k, iy_in:iy_in+k, :], axes=2)] *)
Definition pixel (kernel padded_image output_image : loc) (k stride : Z)
    (ix_out iy_out : Z) : M unit :=
  let ix_in := ix_out * stride in
  let iy_in := iy_out * stride in
  let* ker := load2 kernel in
  let* pad := load3 padded_image in
  let* v := lift (tensordot ker
                    (slice3 pad ix_in (ix_in + k) iy_in (iy_in + k))) in
  let* out := load3 output_image in
  let* out' := lift (setitem3 out ix_out iy_out v) in
  store output_image (Nd3 out').

Definition convolve2D (input_image kernel : loc) (padding stride : Z) : M loc :=
  (* padding *)
  let* img := load3 input_image in
  let nx := Z.of_nat (shape3 img).1.1 in
  let ny := Z.of_nat (shape3 img).1.2 in
  let nchannel := Z.of_nat (shape3 img).2 in
  let* padded_image :=
    (if 0 <? padding then
       let* p := np_zeros (nx + padding * 2) (ny + padding * 2) nchannel in
       run* setslice p padding (- padding) padding (- padding) input_image in
       ret p
     else ret input_image) in
  (* allocate output *)
  let* ker := load2 kernel in
  let k := Z.of_nat (shape2 ker).1 in
  let* qx := floordiv (nx + padding * 2 - k) stride in
  let nx_out := qx + 1 in
  let* qy := floordiv (ny + padding * 2 - k) stride in
  let ny_out := qy + 1 in
  let* output_image := np_zeros nx_out ny_out nchannel in
  (* compute output pixel by pixel *)
  run* for_ (arange nx_out) (λ ix_out,
         for_ (arange ny_out) (λ iy_out,
           pixel kernel padded_image output_image k stride ix_out iy_out)) in
  (* truncate to [0, 1] *)
  let* output_image := np_maximum output_image 0 in
  let* output_image := np_minimum output_image 1 in
  ret output_image.

(** ** Concrete runs *)

Definition img_of (n0 n1 n2 : nat) (f : nat → nat → nat → Q) : array3 :=
  {| shape3 := (n0, n1, n2);
     data3 := map (λ i, map (λ j, map (f i j) (seq 0 n2)) (seq 0 n1)) (seq 0 n0) |}.
Definition ker_of (k0 k1 : nat) (f : nat → nat → Q) : array2 :=
  {| shape2 := (k0, k1);
     data2 := map (λ i, map (f i) (seq 0 k1)) (seq 0 k0) |}.

Definition sobel : array2 :=
  {| shape2 := (3, 3)%nat;
     data2 := [[1; 0; -1]; [2; 0; -2]; [1; 0; -1]]%Q |}.

Definition ramp (i j ch : nat) : Q := (Z.of_nat (i + 2 * j + ch) # 10).


(** ** The functional model

    What [convolve2D] computes, as a function of the two array values.  It
    is a device of the proofs: [convolve2D_exec] below shows that the
    program on the store returns a new cell holding exactly this value. *)

Definition rbind {A B} (r : result A) (k : A → result B) : result B :=
  match r with
  | Ok a => k a
  | Err e => Err e
  end.

Fixpoint fold_result {A S} (f : A → S → result S) (l : list A) (st : S)
  : result S :=
  match l with
  | [] => Ok st
  | x :: l' => rbind (f x st) (fold_result f l')
  end.

(** The value of [padded_image]. *)
Definition pad_value (img : array3) (p : Z) : result array3 :=
  if 0 <? p then
    assign_slice3
      (zeros3 (Z.to_nat (Z.of_nat (shape3 img).1.1 + p * 2))
              (Z.to_nat (Z.of_nat (shape3 img).1.2 + p * 2))
              (shape3 img).2)
      p (- p) p (- p) img
  else Ok img.

(** The window of output pixel (ix, iy) and the vector stored there. *)
Definition window (pad : array3) (k s ix iy : Z) : array3 :=
  slice3 pad (ix * s) (ix * s + k) (iy * s) (iy * s + k).

Definition pixel_value (ker : array2) (pad : array3) (k s ix iy : Z)
    (out : array3) : result array3 :=
  rbind (tensordot ker (window pad k s ix iy)) (setitem3 out ix iy).

Definition loops_value (ker : array2) (pad : array3) (k s nx_out ny_out : Z)
    (out : array3) : result array3 :=
  fold_result
    (λ ix, fold_result (pixel_value ker pad k s ix) (arange ny_out))
    (arange nx_out) out.

(** The value returned once [padded_image] holds [pad]. *)
Definition output_value (ker : array2) (pad : array3) (nx ny : Z) (nc : nat)
    (p s : Z) : result array3 :=
  let k := Z.of_nat (shape2 ker).1 in
  if s =? 0 then Err ZeroDivisionError else
  let nx_out := (nx + p * 2 - k) / s + 1 in
  let ny_out := (ny + p * 2 - k) / s + 1 in
  if bool_decide (0 ≤ nx_out ∧ 0 ≤ ny_out) then
    rbind (loops_value ker pad k s nx_out ny_out
             (zeros3 (Z.to_nat nx_out) (Z.to_nat ny_out) nc))
          (λ raw, Ok (minimum (maximum raw 0) 1))
  else Err NegativeDimensions.

Definition conv_value (img : array3) (ker : array2) (p s : Z) : result array3 :=
  rbind (pad_value img p) (λ pad,
    output_value ker pad (Z.of_nat (shape3 img).1.1) (Z.of_nat (shape3 img).1.2)
                 (shape3 img).2 p s).

(** ** Devices of the refinement proof *)

(** [m] changes at most the cell [ol], holding a rank-3 array, and does to it
    what [f] says; [P] is what [m] needs of the rest of the store. *)
Definition updates (ol : loc) (P : heap → Prop)
    (f : array3 → result array3) (m : M unit) : Prop :=
  ∀ g out, P g → g !! ol = Some (Nd3 out) →
    ∃ out', m g = (match f out with Ok _ => Ok tt | Err e => Err e end,
                   <[ol:=Nd3 out']> g)
            ∧ (∀ r, f out = Ok r → out' = r).

(** The padding statements of [convolve2D], as one command. *)
Definition padding_cmd (input_image : loc) (nx ny nchannel padding : Z)
  : M loc :=
  if 0 <? padding then
    let* p := np_zeros (nx + padding * 2) (ny + padding * 2) nchannel in
    run* setslice p padding (- padding) padding (- padding) input_image in
    ret p
  else ret input_image.

(** The statements of [convolve2D] after the padding, as one command. *)
Definition after_padding (kernel : loc) (nx ny nchannel padding stride : Z)
    (padded_image : loc) : M loc :=
  let* ker := load2 kernel in
  let k := Z.of_nat (shape2 ker).1 in
  let* qx := floordiv (nx + padding * 2 - k) stride in
  let nx_out := qx + 1 in
  let* qy := floordiv (ny + padding * 2 - k) stride in
  let ny_out := qy + 1 in
  let* output_image := np_zeros nx_out ny_out nchannel in
  run* for_ (arange nx_out) (λ ix_out,
         for_ (arange ny_out) (λ iy_out,
           pixel kernel padded_image output_image k stride ix_out iy_out)) in
  let* output_image := np_maximum output_image 0 in
  let* output_image := np_minimum output_image 1 in
  ret output_image.

(** The outcome of a run from store [h]: the store only grows, an error is
    the one of the functional model, and a returned location is a cell that
    did not exist before and holds the model's array. *)
Definition outcome (h : heap) (v : result array3) (r : result loc * heap)
  : Prop :=
  ∃ hs, r.2 = h ++ hs ∧
    match v with
    | Ok out => ∃ o, r.1 = Ok o ∧ (length h ≤ o)%nat ∧
                     (h ++ hs) !! o = Some (Nd3 out)
    | Err e => r.1 = Err e
    end.

(** The call returns a location that holds [out] in the final store. *)
Definition returns (r : result loc * heap) (out : array3) : Prop :=
  ∃ o, r.1 = Ok o ∧ r.2 !! o = Some (Nd3 out).

(** The padded image: total shape per axis. *)
Definition padded_dim (n : nat) (p : Z) : nat :=
  if 0 <? p then Z.to_nat (Z.of_nat n + p * 2) else n.

(** The unclamped output: pixel (i, j) holds the tensordot of the kernel with
    window (i, j). *)
Definition raw_output (ker : array2) (pad : array3) (k s : Z) (n0 n1 nc : nat)
  : array3 :=
  {| shape3 := (n0, n1, nc);
     data3 := map (λ i, map (λ j,
                dot (concat (data2 ker))
                    (concat (data3 (window pad k s (Z.of_nat i) (Z.of_nat j))))
                    nc) (seq 0 n1)) (seq 0 n0) |}.

(** ** What the specification describes *)

(** Total indexing, used where the index is known to be inside. *)
Definition at3 (a : array3) (i j ch : nat) : Q :=
  nth ch (nth j (nth i (data3 a) []) []) 0%Q.
Definition at2 (a : array2) (i j : nat) : Q := nth j (nth i (data2 a) []) 0%Q.

(** The padded image in the specification's words: the original image at
    offset (p, p), exact zeros on the border. *)
Definition spec_padded (img : array3) (p : Z) (r c : Z) (ch : nat) : Q :=
  let nx := Z.of_nat (shape3 img).1.1 in
  let ny := Z.of_nat (shape3 img).1.2 in
  if bool_decide (p ≤ r < p + nx ∧ p ≤ c < p + ny) then
    at3 img (Z.to_nat (r - p)) (Z.to_nat (c - p)) ch
  else 0%Q.

(** The sum over the k x k window with top-left corner (x, y), accumulated
    in row-major (a, b) order. *)
Definition window_sum (ker : array2) (padded : Z → Z → nat → Q) (k : nat)
    (x y : Z) (ch : nat) : Q :=
  Qsum (flat_map
          (λ a, map (λ b, Qmult (at2 ker a b)
                                (padded (x + Z.of_nat a) (y + Z.of_nat b) ch))
                    (seq 0 k))
          (seq 0 k)).

Definition clamp (x : Q) : Q := Qmin (Qmax x 0) 1.

(** The validity constraints of the specification on a call. *)
Record valid_call (img : array3) (ker : array2) (p s : Z) : Prop := {
  valid_img : wf3 img;
  valid_ker : wf2 ker;
  valid_rows : (1 ≤ (shape3 img).1.1)%nat;
  valid_cols : (1 ≤ (shape3 img).1.2)%nat;
  valid_chan : (1 ≤ (shape3 img).2)%nat;
  valid_square : (shape2 ker).1 = (shape2 ker).2;
  valid_side : (1 ≤ (shape2 ker).1)%nat;
  valid_padding : 0 ≤ p;
  valid_stride : 1 ≤ s;
  valid_fit_rows : 0 ≤ Z.of_nat (shape3 img).1.1 + 2 * p - Z.of_nat (shape2 ker).1;
  valid_fit_cols : 0 ≤ Z.of_nat (shape3 img).1.2 + 2 * p - Z.of_nat (shape2 ker).1
}.

(** The output dimensions of the specification. *)
Definition out_dim (n : nat) (k : nat) (p s : Z) : Z :=
  (Z.of_nat n + 2 * p - Z.of_nat k) / s + 1.

(** The shape of an array as Python integers. *)
Definition shapeZ (a : array3) : Z * Z * Z :=
  (Z.of_nat (shape3 a).1.1, Z.of_nat (shape3 a).1.2, Z.of_nat (shape3 a).2).

(** The 1 x 1 kernel that holds 1.0. *)
Definition identity_kernel : array2 :=
  {| shape2 := (1, 1)%nat; data2 := [[1%Q]] |}.

(** * Cells of the other notebooks

    The notebooks call scikit-learn, pandas and matplotlib; what those
    return is a parameter here (the staged predictions, the column names,
    the predicted labels), and the cells' own index and list computations
    are embedded. *)

(** ** Extended slices *)

(** [l[start::step]] for a positive step, with CPython's slice length:
    the cells start, start + step, ... below the length. *)
Definition py_slice_step {A} (start : Z) (step : positive) (l : list A)
  : list A :=
  let n := Z.of_nat (length l) in
  let a := adjust_index start n in
  let count := if a <? n then (n - a - 1) / Z.pos step + 1 else 0 in
  omap (λ q, l !! Z.to_nat (a + Z.of_nat q * Z.pos step))
       (seq 0 (Z.to_nat count)).

(** The arguments of the two fits of the classification notebook,
    [tree.fit(X[::2], y[::2])] and [tree.fit(X[1::2], y[1::2])]. *)
Definition fit_even_args {A B} (X : list A) (y : list B) : list A * list B :=
  (py_slice_step 0 2 X, py_slice_step 0 2 y).
Definition fit_odd_args {A B} (X : list A) (y : list B) : list A * list B :=
  (py_slice_step 1 2 X, py_slice_step 1 2 y).

(** ** The feature columns of the regression notebook *)

(** [cols = [a for a in list(oxides.columns) if a not in ['gllbsc_gap']]] *)
Definition cols (columns : list string) : list string :=
  filter (λ a, a ∉ ["gllbsc_gap"%string]) columns.

(** [max_features=len(oxides.columns)-1], as a Python integer. *)
Definition max_features (columns : list string) : Z :=
  Z.of_nat (length columns) - 1.

(** ** The test score at each boosting step *)

(** The variables the loop writes: the array [test_score] and the loop
    variable [y_pred], which the later cell [gbr._loss(y_test, y_pred)]
    reads. *)
Record scores (P : Type) : Type :=
  Scores { test_score : list Q; y_pred : P }.
Arguments Scores {P} _ _.
Arguments test_score {P} _.
Arguments y_pred {P} _.

(** [for i, y_pred in enumerate(gbr.staged_predict(X_test)):
       test_score[i] = gbr._loss(y_test, y_pred)]
    from iteration [i] on; [loss] is [gbr._loss(y_test, .)] and [stages]
    what [staged_predict] yields.  The store into [test_score] raises
    IndexError beyond the end of the array. *)
Fixpoint staged_loop {P} (loss : P → Q) (i : nat) (stages : list P)
    (st : scores P) : result unit * scores P :=
  match stages with
  | [] => (Ok tt, st)
  | yp :: rest =>
      if decide (i < length (test_score st))%nat then
        staged_loop loss (S i) rest
          (Scores (<[i:=loss yp]> (test_score st)) yp)
      else (Err IndexError, Scores (test_score st) yp)
  end.

(** [test_score = np.zeros((n,), dtype=np.float64)] and the loop; [y0] is
    what [y_pred] held before the cell. *)
Definition staged_scores {P} (n : nat) (loss : P → Q) (stages : list P)
    (y0 : P) : result unit * scores P :=
  staged_loop loss 0 stages (Scores (replicate n 0%Q) y0).

(** [gbr._loss(y_test, y_pred)], the cell after the loop. *)
Definition final_loss {P} (loss : P → Q) (st : scores P) : Q :=
  loss (y_pred st).

(** ** The images of the CNN notebook *)

Record array4 : Type :=
  Array4 { shape4 : nat * nat * nat * nat;
           data4 : list (list (list (list Q))) }.

(** [x / c], elementwise. *)
Definition true_divide (x : array3) (c : Q) : array3 := map3 (λ v, v / c)%Q x.

(** [np.array([x])]: the array under a new leading axis of length 1. *)
Definition np_array_of (x : array3) : array4 :=
  {| shape4 := (1%nat, (shape3 x).1.1, (shape3 x).1.2, (shape3 x).2);
     data4 := [data3 x] |}.

(** [x.transpose([1, 2, 3, 0])]: axes 1, 2, 3 of [x] come first and axis 0
    last, so cell (a, b, c, d) of the result is cell (d, a, b, c) of [x]. *)
Definition transpose_1230 (x : array4) : array4 :=
  let '(s0, s1, s2, s3) := shape4 x in
  {| shape4 := (s1, s2, s3, s0);
     data4 :=
       map (λ a, map (λ b, map (λ c, map (λ d,
              nth c (nth b (nth a (nth d (data4 x) []) []) []) 0%Q)
            (seq 0 s0)) (seq 0 s3)) (seq 0 s2)) (seq 0 s1) |}.

(** [train_images = train_images / 255.0] and
    [train_images = np.array([train_images]).transpose([1, 2, 3, 0])]. *)
Definition append_channel (images : array3) : array4 :=
  transpose_1230 (np_array_of (true_divide images 255)).

(** [x[idata, :, :, 0]]. *)
Definition image_channel0 (x : array4) (idata : Z) : result array2 :=
  let '(s0, s1, s2, s3) := shape4 x in
  match norm_index idata s0, norm_index 0 s3 with
  | Some i, Some c =>
      Ok {| shape2 := (s1, s2);
            data2 := map (map (λ px, nth c px 0%Q)) (nth i (data4 x) []) |}
  | _, _ => Err IndexError
  end.

(** ** The wrong predictions of the CNN notebook *)

(** The exceptions of these cells. *)
Inductive py_exn : Type :=
| PyIndexError       (* index out of range *)
| PyValueError       (* argmax of an empty sequence; subplot number *)
| PyBroadcastError.  (* operands could not be broadcast together *)

Inductive py_result (A : Type) : Type :=
| PyOk (a : A)
| PyRaise (e : py_exn).
Arguments PyOk {A} a.
Arguments PyRaise {A} e.

Definition py_bind {A B} (r : py_result A) (k : A → py_result B)
  : py_result B :=
  match r with
  | PyOk a => k a
  | PyRaise e => PyRaise e
  end.

Fixpoint py_mapM {A B} (f : A → py_result B) (l : list A)
  : py_result (list B) :=
  match l with
  | [] => PyOk []
  | x :: l' =>
      py_bind (f x) (λ y, py_bind (py_mapM f l') (λ ys, PyOk (y :: ys)))
  end.

(** The first index of the maximum of [x :: l], scanning from the left:
    the best index so far changes on a strictly larger value only. *)
Fixpoint argmax_from (best_i : nat) (best : Q) (i : nat) (l : list Q) : nat :=
  match l with
  | [] => best_i
  | x :: l' =>
      if Qlt_le_dec best x then argmax_from i x (S i) l'
      else argmax_from best_i best (S i) l'
  end.

Definition argmax_row (row : list Q) : nat :=
  match row with
  | [] => 0%nat
  | x :: l => argmax_from 0 x 1 l
  end.

(** [a.argmax(axis=1)] of a matrix: ValueError when axis 1 is empty. *)
Definition argmax_axis1 (a : array2) : py_result (list Z) :=
  if decide ((shape2 a).2 = 0%nat) then PyRaise PyValueError
  else PyOk (map (λ row, Z.of_nat (argmax_row row)) (data2 a)).

(** [a != b] on two vectors, with numpy's broadcasting of a vector of
    length 1. *)
Definition not_equal (a b : list Z) : py_result (list bool) :=
  if decide (length a = length b) then
    PyOk (zip_with (λ x y, negb (x =? y)) a b)
  else match a, b with
       | [x], _ => PyOk (map (λ y, negb (x =? y)) b)
       | _, [y] => PyOk (map (λ x, negb (x =? y)) a)
       | _, _ => PyRaise PyBroadcastError
       end.

(** [np.where(c)[0]]: the indices of the true cells, from index [i] on. *)
Fixpoint where_from (i : nat) (c : list bool) : list nat :=
  match c with
  | [] => []
  | b :: c' => if b then i :: where_from (S i) c' else where_from (S i) c'
  end.

(** [wrong = np.where(pred_lables != test_labels)[0]] *)
Definition wrong_indices (pred_lables test_labels : list Z)
  : py_result (list nat) :=
  py_bind (not_equal pred_lables test_labels) (λ c, PyOk (where_from 0 c)).

Definition string_labels : list string :=
  ["T-shirt"; "Trouser"; "Pullover"; "Dress"; "Coat";
   "Sandal"; "Shirt"; "Sneaker"; "Bag"; "Ankle boot"]%string.

(** ["%d" % z] *)
Definition format_d (z : Z) : string := NilZero.string_of_int (Z.to_int z).

(** [labels[idata]] on a vector and [string_labels[v]] on the list: both
    count a negative index from the end and raise IndexError outside. *)
Definition index {A} (l : list A) (i : Z) : py_result A :=
  match norm_index i (length l) with
  | Some n => match l !! n with
              | Some x => PyOk x
              | None => PyRaise PyIndexError
              end
  | None => PyRaise PyIndexError
  end.

(** ["%d: %s" % (labels[idata], string_labels[labels[idata]])] *)
Definition class_label (labels : list Z) (idata : Z) : py_result string :=
  py_bind (index labels idata) (λ v,
  py_bind (index labels idata) (λ v',
  py_bind (index string_labels v') (λ name,
  PyOk (format_d v +:+ ": " +:+ name)))).

(** What one call of [subplot_image] draws. *)
Record panel : Type :=
  Panel { panel_number : Z; panel_image : array2; panel_xlabel : string;
          panel_title : string; panel_title_color : string }.

(** [subplot_image(image, label, nrows, ncols, iplot, label2, label2_color)]:
    [plt.subplot(nrows, ncols, iplot + 1)] raises ValueError unless
    1 <= iplot + 1 <= nrows * ncols. *)
Definition subplot_image (image : array2) (label : string)
    (nrows ncols iplot : Z) (label2 label2_color : string) : py_result panel :=
  if bool_decide (1 ≤ iplot + 1 ≤ nrows * ncols) then
    PyOk (Panel (iplot + 1) image label label2 label2_color)
  else PyRaise PyValueError.

Definition of_result {A} (r : result A) : py_result A :=
  match r with
  | Ok a => PyOk a
  | Err _ => PyRaise PyIndexError
  end.

(** The body of the loop over the wrong predictions. *)
Definition wrong_panel (test_images : array4) (test_labels pred_lables : list Z)
    (nrows ncols : Z) (iplot : nat) (idata : nat) : py_result panel :=
  py_bind (class_label test_labels (Z.of_nat idata)) (λ label,
  py_bind (class_label pred_lables (Z.of_nat idata)) (λ l2,
  let label2 := (l2 +:+ " (X)")%string in
  py_bind (of_result (image_channel0 test_images (Z.of_nat idata))) (λ image,
  subplot_image image label nrows ncols (Z.of_nat iplot) label2 "r"))).

(** [for iplot, idata in enumerate(wrong[0:(nrows * ncols)]): ...] with
    nrows = 4 and ncols = 8. *)
Definition plot_wrong (test_images : array4) (test_labels pred_lables : list Z)
  : py_result (list panel) :=
  let nrows := 4 in
  let ncols := 8 in
  py_bind (wrong_indices pred_lables test_labels) (λ wrong,
  py_mapM (λ '(iplot, idata),
             wrong_panel test_images test_labels pred_lables nrows ncols
               iplot idata)
          (imap (λ iplot idata, (iplot, idata))
                (py_slice 0 (nrows * ncols) wrong))).

(** The body of the loop over the first training images. *)
Definition train_panel (train_images : array4) (train_labels : list Z)
    (nrows ncols : Z) (idata : Z) : py_result panel :=
  py_bind (class_label train_labels idata) (λ label,
  py_bind (of_result (image_channel0 train_images idata)) (λ image,
  subplot_image image label nrows ncols idata "" "r")).

(** [for idata in np.arange(nrows * ncols): ...] with nrows = 4 and
    ncols = 8. *)
Definition plot_train (train_images : array4) (train_labels : list Z)
  : py_result (list panel) :=
  let nrows := 4 in
  let ncols := 8 in
  py_mapM (train_panel train_images train_labels nrows ncols)
          (arange (nrows * ncols)).

(** ** The decision regions of the classification notebook *)

(** [np.linspace(start, stop, num=num)] in exact arithmetic: the samples
    [i * step + start], the last one overwritten by [stop] itself. *)
Definition linspace (start stop : Q) (num : nat) : list Q :=
  let div := (Z.of_nat num - 1)%Z in
  let delta := (stop - start)%Q in
  let y := map (λ i, inject_Z (Z.of_nat i)) (seq 0 num) in
  let y :=
    if (0 <? div)%Z then
      let step := (delta / inject_Z div)%Q in
      if Qeq_bool step 0 then map (λ v, (v / inject_Z div) * delta)%Q y
      else map (λ v, v * step)%Q y
    else map (λ v, v * delta)%Q y in
  let y := map (λ v, v + start)%Q y in
  if (1 <? Z.of_nat num)%Z then <[(num - 1)%nat := stop]> y else y.

(** [np.meshgrid(x, y)]: both grids have one row per element of [y] and one
    column per element of [x]. *)
Definition meshgrid (x y : list Q) : array2 * array2 :=
  ({| shape2 := (length y, length x); data2 := replicate (length y) x |},
   {| shape2 := (length y, length x);
      data2 := map (λ v, replicate (length x) v) y |}).

(** [a.ravel()], row after row. *)
Definition ravel (a : array2) : list Q := concat (data2 a).

(** [np.c_[a, b]] of two vectors: the rows (a_i, b_i). *)
Definition c_ (a b : list Q) : py_result (list (Q * Q)) :=
  if decide (length a = length b) then PyOk (zip a b)
  else PyRaise PyValueError.

(** [v.reshape(shape)] of a vector. *)
Definition reshape {A} (v : list A) (shape : nat * nat)
  : py_result (list (list A)) :=
  if decide (length v = (shape.1 * shape.2)%nat) then
    PyOk (map (λ i, take shape.2 (drop (i * shape.2) v)) (seq 0 shape.1))
  else PyRaise PyValueError.

(** The grid of [visualize_classifier]: [xx], [yy] and [Z].  The fitted
    model labels each row of its input on its own, [classify] is the label
    of one point. *)
Definition decision_grid {C} (classify : Q * Q → C) (xlim ylim : Q * Q)
  : py_result (array2 * array2 * list (list C)) :=
  let '(xx, yy) := meshgrid (linspace xlim.1 xlim.2 200)
                            (linspace ylim.1 ylim.2 200) in
  py_bind (c_ (ravel xx) (ravel yy)) (λ points,
  py_bind (reshape (map classify points) (shape2 xx)) (λ Z,
  PyOk (xx, yy, Z))).

(** ** Tactics *)

Ltac valid_call_tac :=
  constructor; simpl;
  try lia;
  try reflexivity;
  try (split; [reflexivity | repeat constructor]).

(** ** Concrete runs *)

(** The call of the notebook, [convolve2D(input_image, kernel, padding=1,
    stride=1)] with the vertical Sobel kernel, on a 4 x 4 ramp: the left
    columns see a rising edge and clamp to 0, the right column clamps to 1. *)
Example sobel_on_ramp :
  returns (convolve2D 0%nat 1%nat 1 1 [Nd3 (img_of 4 4 1 ramp); Nd2 sobel])
    {| shape3 := (4, 4, 1)%nat;
       data3 := [[[0]; [0]; [0]; [1]]; [[0]; [0]; [0]; [1]];
                 [[0]; [0]; [0]; [1]]; [[0]; [0]; [0]; [1]]]%Q |}.
Proof. exists 5%nat. split; vm_compute; reflexivity. Qed.

(** The store after that call: the two arguments, then the padded image, the
    output filled by the loops, its maximum with 0 and the returned array. *)
Example sobel_on_ramp_store :
  length (convolve2D 0%nat 1%nat 1 1 [Nd3 (img_of 4 4 1 ramp); Nd2 sobel]).2
  = 6%nat ∧
  take 2 (convolve2D 0%nat 1%nat 1 1 [Nd3 (img_of 4 4 1 ramp); Nd2 sobel]).2
  = [Nd3 (img_of 4 4 1 ramp); Nd2 sobel].
Proof. split; vm_compute; reflexivity. Qed.

(** Without padding the padded image is the input cell itself: one cell
    less is allocated. *)
Example no_padding_store :
  length (convolve2D 0%nat 1%nat 0 1 [Nd3 (img_of 4 4 1 ramp); Nd2 sobel]).2
  = 5%nat.
Proof. vm_compute. reflexivity. Qed.

(** A kernel that is not square meets a window of another shape. *)
Example kernel_not_square :
  (convolve2D 0%nat 1%nat 0 1
     [Nd3 (img_of 4 4 1 ramp); Nd2 (ker_of 2 3 (λ _ _, 1%Q))]).1
  = Err ShapeMismatch.
Proof. vm_compute. reflexivity. Qed.

(** ** Running the program: the store *)

Lemma fold_result_app {A S} (f : A → S → result S) l1 l2 st :
  fold_result f (l1 ++ l2) st = rbind (fold_result f l1 st) (fold_result f l2).
Proof.
  revert st. induction l1 as [|x l1 IH]; intros st; simpl; [done|].
  destruct (f x st); simpl; auto.
Qed.

Lemma arange_S (n : nat) :
  arange (Z.of_nat (S n)) = arange (Z.of_nat n) ++ [Z.of_nat n].
Proof.
  unfold arange. rewrite !Nat2Z.id, seq_S, map_app. reflexivity.
Qed.

Lemma for_updates {A} ol (P : heap → Prop) (f : A → array3 → result array3)
    (body : A → M unit) (xs : list A) :
  (∀ g v, P g → P (<[ol:=v]> g)) →
  (∀ x, updates ol P (f x) (body x)) →
  updates ol P (fold_result f xs) (for_ xs body).
Proof.
  intros HP Hbody. induction xs as [|x xs IH]; intros g out Pg Hol.
  - exists out. simpl. unfold ret. split; [|congruence].
    by rewrite list_insert_id.
  - destruct (Hbody x g out Pg Hol) as (o1 & Hrun & Hval).
    simpl. unfold bind at 1. rewrite Hrun.
    destruct (f x out) as [r|e] eqn:Hf; simpl.
    + specialize (Hval r eq_refl). subst o1.
      assert (Hlt : (ol < length g)%nat) by (eapply lookup_lt_Some; eauto).
      destruct (IH (<[ol:=Nd3 r]> g) r) as (o2 & Hrun2 & Hval2).
      * by apply HP.
      * by apply list_lookup_insert_eq.
      * exists o2. rewrite Hrun2, list_insert_insert_eq. done.
    + exists o1. split; [done | discriminate].
Qed.

Lemma pixel_updates b pl ol ker pad k s ix iy :
  ol ≠ b → ol ≠ pl →
  updates ol (λ g, g !! b = Some (Nd2 ker) ∧ g !! pl = Some (Nd3 pad))
          (pixel_value ker pad k s ix iy) (pixel b pl ol k s ix iy).
Proof.
  intros Hb Hpl g out [Hker Hpad] Hout.
  unfold pixel, pixel_value, window, bind, load2, load3, lift, store.
  rewrite Hker, Hpad.
  destruct (tensordot ker _) as [v|e]; simpl.
  - rewrite Hout. destruct (setitem3 out ix iy v) as [r|e]; simpl.
    + exists r. split; [done | congruence].
    + exists out. rewrite list_insert_id by done. split; [done | discriminate].
  - exists out. rewrite list_insert_id by done. split; [done | discriminate].
Qed.

Lemma loops_updates b pl ol ker pad k s nx_out ny_out :
  ol ≠ b → ol ≠ pl →
  updates ol (λ g, g !! b = Some (Nd2 ker) ∧ g !! pl = Some (Nd3 pad))
    (loops_value ker pad k s nx_out ny_out)
    (for_ (arange nx_out) (λ ix_out,
       for_ (arange ny_out) (λ iy_out,
         pixel b pl ol k s ix_out iy_out))).
Proof.
  intros Hb Hpl.
  assert (Hkeep : ∀ (g : heap) v,
             g !! b = Some (Nd2 ker) ∧ g !! pl = Some (Nd3 pad) →
             <[ol:=v]> g !! b = Some (Nd2 ker) ∧
             <[ol:=v]> g !! pl = Some (Nd3 pad)).
  { intros g v [? ?]. by rewrite !list_lookup_insert_ne. }
  unfold loops_value. apply for_updates; [done|]. intros ix.
  apply for_updates; [done|]. intros iy. by apply pixel_updates.
Qed.

Lemma outcome_grow h hs v r : outcome (h ++ hs) v r → outcome h v r.
Proof.
  intros (hs' & Hh & Hv). exists (hs ++ hs'). rewrite app_assoc. split; [done|].
  destruct v as [out|e]; [|done].
  destruct Hv as (o & ? & Hle & ?). exists o. rewrite length_app in Hle.
  repeat split; auto with lia.
Qed.

Lemma after_padding_exec h b pl ker pad nx ny nc p s :
  h !! b = Some (Nd2 ker) → h !! pl = Some (Nd3 pad) →
  outcome h (output_value ker pad nx ny nc p s)
          (after_padding b nx ny (Z.of_nat nc) p s pl h).
Proof.
  intros Hker Hpad. unfold after_padding, output_value.
  unfold bind at 1. unfold load2 at 1. rewrite Hker.
  unfold floordiv. destruct (s =? 0) eqn:Hs.
  { exists []. rewrite app_nil_r. done. }
  unfold bind at 1. unfold ret at 1. unfold bind at 1. unfold ret at 1.
  set (k := Z.of_nat (shape2 ker).1).
  set (nx_out := (nx + p * 2 - k) / s + 1).
  set (ny_out := (ny + p * 2 - k) / s + 1).
  unfold bind at 1. unfold np_zeros.
  destruct (bool_decide (0 ≤ nx_out ∧ 0 ≤ ny_out)) eqn:Hdim.
  2:{ apply bool_decide_eq_false in Hdim.
      rewrite bool_decide_eq_false_2 by lia.
      exists []. rewrite app_nil_r. done. }
  apply bool_decide_eq_true in Hdim.
  rewrite bool_decide_eq_true_2 by lia.
  unfold alloc at 1. rewrite Nat2Z.id.
  set (z := zeros3 _ _ _). set (ol := length h).
  assert (Hb : ol ≠ b) by (apply lookup_lt_Some in Hker; unfold ol; lia).
  assert (Hpl : ol ≠ pl) by (apply lookup_lt_Some in Hpad; unfold ol; lia).
  destruct (loops_updates b pl ol ker pad k s nx_out ny_out Hb Hpl
              (h ++ [Nd3 z]) z) as (raw & Hrun & Hraw).
  { split; by apply lookup_app_l_Some. }
  { unfold ol. by rewrite list_lookup_middle. }
  unfold bind at 1. rewrite Hrun.
  assert (Hins : <[ol:=Nd3 raw]> (h ++ [Nd3 z]) = h ++ [Nd3 raw]).
  { unfold ol. rewrite <- (Nat.add_0_r (length h)), insert_app_r. done. }
  rewrite Hins.
  destruct (loops_value ker pad k s nx_out ny_out z) as [r|e]; simpl.
  2:{ exists [Nd3 raw]. done. }
  rewrite (Hraw r eq_refl).
  unfold np_maximum, np_minimum, bind, load3, alloc, ret.
  rewrite list_lookup_middle by done.
  rewrite length_app; simpl.
  rewrite list_lookup_middle by (rewrite length_app; simpl; lia).
  exists [Nd3 r; Nd3 (maximum r 0); Nd3 (minimum (maximum r 0) 1)].
  simpl. split.
  { rewrite <- !app_assoc. done. }
  eexists. split; [reflexivity|]. rewrite !length_app. simpl. split; [lia|].
  rewrite lookup_app_r by lia.
  replace (length h + 1 + 1 - length h)%nat with 2%nat by lia. done.
Qed.

Lemma convolve2D_unfold a b p s :
  convolve2D a b p s =
  (let* img := load3 a in
   let* pl := padding_cmd a (Z.of_nat (shape3 img).1.1)
                (Z.of_nat (shape3 img).1.2) (Z.of_nat (shape3 img).2) p in
   after_padding b (Z.of_nat (shape3 img).1.1) (Z.of_nat (shape3 img).1.2)
     (Z.of_nat (shape3 img).2) p s pl).
Proof. reflexivity. Qed.

(** The padding either shares the input cell (no padding asked) or fills one
    new cell; nothing else moves. *)
Lemma padding_exec h a img p :
  h !! a = Some (Nd3 img) →
  ∃ hs, (if 0 <? p then ∃ x, hs = [Nd3 x] else hs = []) ∧
    match pad_value img p with
    | Ok pad => ∃ pl,
        padding_cmd a (Z.of_nat (shape3 img).1.1) (Z.of_nat (shape3 img).1.2)
          (Z.of_nat (shape3 img).2) p h = (Ok pl, h ++ hs) ∧
        (h ++ hs) !! pl = Some (Nd3 pad)
    | Err e =>
        padding_cmd a (Z.of_nat (shape3 img).1.1) (Z.of_nat (shape3 img).1.2)
          (Z.of_nat (shape3 img).2) p h = (Err e, h ++ hs)
    end.
Proof.
  intros Ha. unfold padding_cmd, pad_value.
  destruct (0 <? p) eqn:Hp.
  - apply Z.ltb_lt in Hp.
    unfold np_zeros. rewrite bool_decide_eq_true_2 by lia.
    rewrite Nat2Z.id. set (z := zeros3 _ _ _).
    unfold bind, alloc, setslice, bind, load3, lift, store, ret.
    rewrite list_lookup_middle by done.
    rewrite (lookup_app_l_Some _ _ _ _ Ha).
    destruct (assign_slice3 z p (- p) p (- p) img) as [pad|e].
    + exists [Nd3 pad]. split; [eauto|]. exists (length h).
      rewrite <- (Nat.add_0_r (length h)) at 2. rewrite insert_app_r. simpl.
      split; [done|]. by rewrite list_lookup_middle.
    + exists [Nd3 z]. split; [eauto|]. done.
  - exists []. split; [auto|]. exists a. rewrite app_nil_r. done.
Qed.

(** The program refines the functional model. *)
Lemma convolve2D_exec h a b img ker p s :
  h !! a = Some (Nd3 img) → h !! b = Some (Nd2 ker) →
  outcome h (conv_value img ker p s) (convolve2D a b p s h).
Proof.
  intros Ha Hb. rewrite convolve2D_unfold.
  unfold bind at 1. unfold load3 at 1. rewrite Ha.
  destruct (padding_exec h a img p Ha) as (hs & _ & Hpad).
  unfold conv_value. unfold bind at 1.
  destruct (pad_value img p) as [pad|e]; simpl.
  - destruct Hpad as (pl & -> & Hpl).
    apply (outcome_grow h hs), after_padding_exec; [|done].
    by apply lookup_app_l_Some.
  - rewrite Hpad. exists hs. done.
Qed.

Lemma after_padding_no_kernel h b nx ny nc p s pl :
  (∀ ker, h !! b ≠ Some (Nd2 ker)) →
  after_padding b nx ny nc p s pl h = (Err KernelRank, h).
Proof.
  intros Hb. unfold after_padding, bind, load2.
  destruct (h !! b) as [[ker|x]|] eqn:E; try done. by destruct (Hb ker).
Qed.

Lemma convolve2D_no_image h a b p s :
  (∀ img, h !! a ≠ Some (Nd3 img)) →
  convolve2D a b p s h = (Err IndexError, h).
Proof.
  intros Ha. rewrite convolve2D_unfold. unfold bind at 1. unfold load3 at 1.
  destruct (h !! a) as [[x|img]|] eqn:E; try done. by destruct (Ha img).
Qed.

Lemma convolve2D_no_kernel h a b img p s :
  h !! a = Some (Nd3 img) → (∀ ker, h !! b ≠ Some (Nd2 ker)) →
  ∃ hs e, convolve2D a b p s h = (Err e, h ++ hs).
Proof.
  intros Ha Hb. rewrite convolve2D_unfold.
  unfold bind at 1. unfold load3 at 1. rewrite Ha.
  destruct (padding_exec h a img p Ha) as (hs & Hhs & Hpad).
  exists hs. unfold bind.
  destruct (pad_value img p) as [pad|e].
  - destruct Hpad as (pl & -> & Hpl). exists KernelRank.
    apply after_padding_no_kernel.
    intros ker Hk. destruct (0 <? p); [destruct Hhs as [y ->] | subst hs].
    2:{ rewrite app_nil_r in Hk. by destruct (Hb ker). }
    destruct (decide (b < length h)%nat) as [Hlt|Hge].
    + rewrite lookup_app_l in Hk by done. by destruct (Hb ker).
    + destruct (decide (b = length h)) as [->|Hne].
      * rewrite list_lookup_middle in Hk by done. congruence.
      * rewrite lookup_ge_None_2 in Hk; [done|].
        rewrite length_app. simpl. lia.
  - exists e. rewrite Hpad. done.
Qed.

(** Whatever the arguments, a call only adds cells to the store, and a
    returned location is one of the added cells. *)
Lemma convolve2D_frame h a b p s :
  ∃ hs, (convolve2D a b p s h).2 = h ++ hs ∧
    ∀ o, (convolve2D a b p s h).1 = Ok o →
         (length h ≤ o < length (h ++ hs))%nat.
Proof.
  destruct (h !! a) as [[x|img]|] eqn:Ha.
  1,3: exists []; rewrite app_nil_r, convolve2D_no_image by congruence; done.
  destruct (h !! b) as [[ker|x]|] eqn:Hb.
  - destruct (convolve2D_exec h a b img ker p s Ha Hb) as (hs & Hh & Hv).
    exists hs. split; [done|]. intros o Ho.
    destruct (conv_value img ker p s) as [out|e]; [|congruence].
    destruct Hv as (o' & Ho' & Hle & Hlook).
    assert (o' = o) by congruence. subst o'.
    apply lookup_lt_Some in Hlook. lia.
  - destruct (convolve2D_no_kernel h a b img p s Ha) as (hs & e & ->).
    { congruence. }
    exists hs. done.
  - destruct (convolve2D_no_kernel h a b img p s Ha) as (hs & e & ->).
    { congruence. }
    exists hs. done.
Qed.

(** ** Slices, shapes and the padded image *)

Lemma slice_len_inside (lo hi : Z) (n : nat) :
  0 ≤ lo → lo ≤ hi → hi ≤ Z.of_nat n → slice_len lo hi n = Z.to_nat (hi - lo).
Proof.
  intros. unfold slice_len, adjust_index.
  destruct (hi <? 0) eqn:E1; destruct (lo <? 0) eqn:E2; lia.
Qed.

Lemma slice_start_inside (lo : Z) (n : nat) :
  0 ≤ lo → lo ≤ Z.of_nat n → slice_start lo n = Z.to_nat lo.
Proof.
  intros. unfold slice_start, adjust_index. destruct (lo <? 0) eqn:E; lia.
Qed.

(** [p:-p] on an axis of length n + 2p is the n cells from p on. *)
Lemma slice_len_pad (p : Z) (n : nat) :
  0 < p → slice_len p (- p) (Z.to_nat (Z.of_nat n + p * 2)) = n.
Proof.
  intros. unfold slice_len, adjust_index. rewrite Z2Nat.id by lia.
  destruct (- p <? 0) eqn:E1; destruct (p <? 0) eqn:E2; lia.
Qed.

Lemma slice_start_pad (p : Z) (n : nat) :
  0 < p → slice_start p (Z.to_nat (Z.of_nat n + p * 2)) = Z.to_nat p.
Proof. intros. apply slice_start_inside; lia. Qed.

Lemma wf3_zeros n0 n1 n2 : wf3 (zeros3 n0 n1 n2).
Proof.
  split; simpl; [apply length_replicate|].
  apply Forall_replicate. split; [apply length_replicate|].
  apply Forall_replicate, length_replicate.
Qed.

(** The slice assignment of the padding always finds equal shapes. *)
Lemma pad_assign_ok img p :
  0 < p →
  ∃ pad,
    assign_slice3
      (zeros3 (Z.to_nat (Z.of_nat (shape3 img).1.1 + p * 2))
              (Z.to_nat (Z.of_nat (shape3 img).1.2 + p * 2))
              (shape3 img).2)
      p (- p) p (- p) img = Ok pad.
Proof.
  intros Hp. unfold assign_slice3, slice3. simpl.
  rewrite !slice_len_pad by done.
  destruct (shape3 img) as [[nx ny] nc]. simpl.
  rewrite decide_True by done. eauto.
Qed.

Lemma pad_value_shape img p :
  ∃ pad, pad_value img p = Ok pad ∧
    shape3 pad = (padded_dim (shape3 img).1.1 p,
                  padded_dim (shape3 img).1.2 p, (shape3 img).2).
Proof.
  unfold pad_value, padded_dim. destruct (0 <? p) eqn:Hp.
  - apply Z.ltb_lt in Hp. destruct (pad_assign_ok img p Hp) as [pad Hpad].
    exists pad. split; [done|].
    unfold assign_slice3 in Hpad. simpl in Hpad.
    destruct (decide _) in Hpad; [|done]. by inversion Hpad.
  - exists img. split; [done|]. by destruct (shape3 img) as [[? ?] ?].
Qed.

Lemma padded_dim_ge n p : Z.of_nat n + p * 2 ≤ Z.of_nat (padded_dim n p).
Proof. unfold padded_dim. destruct (0 <? p) eqn:Hp; lia. Qed.

(** A window that lies inside the padded image has the kernel's side. *)
Lemma window_shape pad (n0 n1 nc : nat) (k s ix iy : Z) :
  shape3 pad = (n0, n1, nc) →
  0 ≤ k → 0 ≤ ix * s → ix * s + k ≤ Z.of_nat n0 →
  0 ≤ iy * s → iy * s + k ≤ Z.of_nat n1 →
  shape3 (window pad k s ix iy) = (Z.to_nat k, Z.to_nat k, nc).
Proof.
  intros Hsh ? ? ? ? ?. unfold window, slice3. rewrite Hsh. simpl.
  rewrite !slice_len_inside by lia. do 2 f_equal; f_equal; lia.
Qed.

(** The last window along an axis ends inside the padded axis. *)
Lemma last_window_fits (d s i n_out : Z) :
  1 ≤ s → 0 ≤ d → n_out = d / s + 1 → 0 ≤ i < n_out →
  0 ≤ i * s ∧ i * s ≤ d.
Proof.
  intros Hs Hd -> Hi. split; [nia|].
  assert (s * (d / s) ≤ d) by (apply Z.mul_div_le; lia). nia.
Qed.

(** ** The two loops *)

Lemma norm_index_nat (i n : nat) :
  (i < n)%nat → norm_index (Z.of_nat i) n = Some i.
Proof.
  intros. unfold norm_index.
  destruct (Z.of_nat i <? 0) eqn:E; [lia|].
  rewrite bool_decide_eq_true_2 by lia. by rewrite Nat2Z.id.
Qed.

Lemma setitem3_nat out (n0 n1 nc i j : nat) v :
  shape3 out = (n0, n1, nc) → (i < n0)%nat → (j < n1)%nat → length v = nc →
  setitem3 out (Z.of_nat i) (Z.of_nat j) v =
  Ok {| shape3 := shape3 out; data3 := alter (<[j:=v]>) i (data3 out) |}.
Proof.
  intros Hsh Hi Hj Hv. unfold setitem3. rewrite Hsh.
  rewrite !norm_index_nat by done. by rewrite decide_True.
Qed.

(** Filling the first [m] pixels of row [i]. *)
Lemma inner_loop ker pad k s (n0 n1 nc i m : nat) (f : nat → list Q) out :
  shape3 out = (n0, n1, nc) → (i < n0)%nat → (m ≤ n1)%nat →
  (∀ row, data3 out !! i = Some row → length row = n1) →
  (∀ j, (j < m)%nat →
        tensordot ker (window pad k s (Z.of_nat i) (Z.of_nat j)) = Ok (f j) ∧
        length (f j) = nc) →
  fold_result (pixel_value ker pad k s (Z.of_nat i)) (arange (Z.of_nat m)) out
  = Ok {| shape3 := shape3 out;
          data3 := alter (λ row, map f (seq 0 m) ++ drop m row) i (data3 out) |}.
Proof.
  intros Hsh Hi Hm Hrow Htd. induction m as [|m IH].
  - simpl. f_equal. destruct out as [sh d]. simpl. f_equal.
    symmetry. by apply list_alter_id.
  - rewrite seq_S, map_app.
    rewrite arange_S, fold_result_app, IH by (auto with lia). simpl.
    unfold pixel_value. destruct (Htd m) as [-> Hlen]; [lia|]. simpl.
    erewrite setitem3_nat; eauto with lia. simpl. do 2 f_equal.
    rewrite list_alter_alter_eq. apply list_alter_ext; [|done].
    intros row Hr. unfold compose. apply Hrow in Hr.
    rewrite <- (Nat.add_0_r m) at 1.
    replace m with (length (map f (seq 0 m))) at 1
      by (by rewrite length_map, length_seq).
    rewrite insert_app_r.
    destruct (drop m row) as [|x rest] eqn:E.
    { apply (f_equal length) in E. rewrite length_drop in E. simpl in E. lia. }
    simpl. rewrite <- app_assoc. simpl. do 2 f_equal.
    replace (S m) with (m + 1)%nat by lia. by rewrite <- drop_drop, E.
Qed.

(** Filling the first [m] rows. *)
Lemma outer_loop ker pad k s (n0 n1 nc m : nat) (f : nat → nat → list Q) out :
  shape3 out = (n0, n1, nc) → wf3 out → (m ≤ n0)%nat →
  (∀ i j, (i < m)%nat → (j < n1)%nat →
        tensordot ker (window pad k s (Z.of_nat i) (Z.of_nat j)) = Ok (f i j) ∧
        length (f i j) = nc) →
  loops_value ker pad k s (Z.of_nat m) (Z.of_nat n1) out
  = Ok {| shape3 := shape3 out;
          data3 := map (λ i, map (f i) (seq 0 n1)) (seq 0 m)
                   ++ drop m (data3 out) |}.
Proof.
  intros Hsh [Hlen Hrows] Hm Htd. unfold loops_value. rewrite Hsh in *.
  simpl in *. induction m as [|m IH].
  - destruct out as [sh d]. simpl in *. by subst.
  - rewrite seq_S, map_app.
    rewrite arange_S, fold_result_app, IH by (auto with lia). simpl.
    destruct (lookup_lt_is_Some_2 (data3 out) m) as [row Hrow]; [lia|].
    assert (Hrl : length row = n1).
    { by apply (Forall_lookup_1 _ _ _ _ Hrows Hrow). }
    set (pre := map _ (seq 0 m)).
    assert (Hpre : length pre = m) by (unfold pre; by rewrite length_map, length_seq).
    erewrite (inner_loop ker pad k s n0 n1 nc m n1 (f m)); simpl; eauto with lia.
    2:{ intros r. rewrite lookup_app_r, Hpre, Nat.sub_diag, lookup_drop,
          Nat.add_0_r, Hrow by lia. congruence. }
    do 2 f_equal.
    rewrite <- (Nat.add_0_r m) at 1. rewrite <- Hpre at 1.
    rewrite alter_app_r. rewrite (drop_S _ _ _ Hrow). simpl.
    rewrite drop_ge by lia. rewrite app_nil_r.
    rewrite <- app_assoc. done.
Qed.

(** ** The value of a call *)

Lemma length_dot a b n : length (dot a b n) = n.
Proof. unfold dot. by rewrite length_map, length_seq. Qed.

(** When every window lies inside the padded image and has the kernel's
    shape, both loops run to their end. *)
Lemma loops_value_fits ker pad (k : nat) (s : Z) (m0 m1 n0 n1 nc : nat) :
  shape3 pad = (n0, n1, nc) → shape2 ker = (k, k) →
  (∀ i, (i < m0)%nat → (0 < m1)%nat →
        0 ≤ Z.of_nat i * s ∧ Z.of_nat i * s + Z.of_nat k ≤ Z.of_nat n0) →
  (∀ j, (j < m1)%nat → (0 < m0)%nat →
        0 ≤ Z.of_nat j * s ∧ Z.of_nat j * s + Z.of_nat k ≤ Z.of_nat n1) →
  loops_value ker pad (Z.of_nat k) s (Z.of_nat m0) (Z.of_nat m1)
    (zeros3 m0 m1 nc)
  = Ok (raw_output ker pad (Z.of_nat k) s m0 m1 nc).
Proof.
  intros Hpad Hker Hx Hy.
  erewrite (outer_loop ker pad (Z.of_nat k) s m0 m1 nc m0
              (λ i j, dot (concat (data2 ker))
                 (concat (data3 (window pad (Z.of_nat k) s (Z.of_nat i)
                                   (Z.of_nat j)))) nc));
    eauto using wf3_zeros.
  - unfold raw_output. simpl. f_equal. f_equal.
    rewrite drop_ge by (by rewrite length_replicate). by rewrite app_nil_r.
  - intros i j Hi Hj. split; [|apply length_dot].
    unfold tensordot. rewrite Hker.
    destruct (Hx i) as [? ?]; [lia..|]. destruct (Hy j) as [? ?]; [lia..|].
    erewrite window_shape by (eauto; lia).
    rewrite Nat2Z.id. by rewrite decide_True.
Qed.


(** A deficit of at most one stride gives dimension 0, not an error. *)
Lemma div_deficit (d s : Z) : 1 ≤ s → - s ≤ d < 0 → d / s + 1 = 0.
Proof.
  intros Hs Hd. assert (d / s = -1); [|lia].
  symmetry. apply (Z.div_unique d s (-1) (d + s)); lia.
Qed.

Lemma div_deficit_nonneg (d s : Z) : 1 ≤ s → - s ≤ d → 0 ≤ d / s + 1.
Proof.
  intros. assert (-1 ≤ d / s); [|lia]. apply Z.div_le_lower_bound; lia.
Qed.

Lemma div_positive_fit (d s : Z) : 1 ≤ s → 0 < d / s + 1 → 0 ≤ d.
Proof.
  intros Hs Hq. destruct (decide (0 ≤ d)) as [|Hneg]; [done|].
  assert (d / s < 0); [|lia]. apply Z.div_lt_upper_bound; lia.
Qed.

(** Whenever the deficit of each axis is at most one stride, the call gets
    through: every window that is read lies inside the padded image. *)
Lemma output_value_fits ker pad (k n0 n1 nc : nat) (nx ny p s : Z) :
  shape3 pad = (n0, n1, nc) → shape2 ker = (k, k) → 1 ≤ s →
  nx + p * 2 ≤ Z.of_nat n0 → ny + p * 2 ≤ Z.of_nat n1 →
  - s ≤ nx + p * 2 - Z.of_nat k → - s ≤ ny + p * 2 - Z.of_nat k →
  output_value ker pad nx ny nc p s =
  Ok (minimum (maximum
        (raw_output ker pad (Z.of_nat k) s
           (Z.to_nat ((nx + p * 2 - Z.of_nat k) / s + 1))
           (Z.to_nat ((ny + p * 2 - Z.of_nat k) / s + 1)) nc) 0) 1).
Proof.
  intros Hpad Hker Hs Hnx Hny Hdx Hdy. unfold output_value. rewrite Hker. simpl.
  destruct (s =? 0) eqn:E; [lia|].
  set (dx := nx + p * 2 - Z.of_nat k) in *.
  set (dy := ny + p * 2 - Z.of_nat k) in *.
  pose proof (div_deficit_nonneg dx s Hs Hdx).
  pose proof (div_deficit_nonneg dy s Hs Hdy).
  rewrite bool_decide_eq_true_2 by lia.
  remember (Z.to_nat (dx / s + 1)) as mx eqn:Emx.
  remember (Z.to_nat (dy / s + 1)) as my eqn:Emy.
  assert (Hmx : dx / s + 1 = Z.of_nat mx) by lia.
  assert (Hmy : dy / s + 1 = Z.of_nat my) by lia.
  rewrite Hmx, Hmy.
  erewrite loops_value_fits; eauto.
  - intros i Hi _. pose proof (div_positive_fit dx s Hs).
    destruct (last_window_fits dx s (Z.of_nat i) (Z.of_nat mx)); lia.
  - intros j Hj _. pose proof (div_positive_fit dy s Hs).
    destruct (last_window_fits dy s (Z.of_nat j) (Z.of_nat my)); lia.
Qed.

(** ** Lists as tables *)

Lemma lookup_map {A B} (f : A → B) (l : list A) (i : nat) :
  map f l !! i = f <$> (l !! i).
Proof. exact (list_lookup_fmap f l i). Qed.

Lemma lookup_tabulate {A} (f : nat → A) (n i : nat) :
  (i < n)%nat → map f (seq 0 n) !! i = Some (f i).
Proof. intros. by rewrite lookup_map, lookup_seq_lt. Qed.

Lemma nth_tabulate {A} (f : nat → A) (n i : nat) d :
  (i < n)%nat → nth i (map f (seq 0 n)) d = f i.
Proof. intros. by apply nth_lookup_Some, lookup_tabulate. Qed.

Lemma take_drop_tabulate {A} (l : list A) (d : A) (x k : nat) :
  (x + k ≤ length l)%nat →
  take k (drop x l) = map (λ a, nth (x + a) l d) (seq 0 k).
Proof.
  intros Hlen. apply list_eq. intros i.
  destruct (decide (i < k)%nat) as [Hi|Hi].
  - rewrite lookup_take_lt, lookup_drop, lookup_tabulate by done.
    destruct (nth_lookup_or_length l (x + i) d); [done | lia].
  - rewrite lookup_take_ge by lia. symmetry. apply lookup_ge_None_2.
    rewrite length_map, length_seq. lia.
Qed.

Lemma tabulate_nth {A} (l : list A) (d : A) :
  l = map (λ a, nth a l d) (seq 0 (length l)).
Proof.
  pose proof (take_drop_tabulate l d 0 (length l)) as H.
  simpl in H. rewrite take_ge in H by done. apply H. lia.
Qed.

Lemma py_slice_inside {A} (l : list A) (d : A) (lo : Z) (k : nat) :
  0 ≤ lo → lo + Z.of_nat k ≤ Z.of_nat (length l) →
  py_slice lo (lo + Z.of_nat k) l =
  map (λ a, nth (Z.to_nat lo + a) l d) (seq 0 k).
Proof.
  intros. unfold py_slice.
  rewrite slice_len_inside, slice_start_inside by lia.
  replace (Z.to_nat (lo + Z.of_nat k - lo)) with k by lia.
  apply take_drop_tabulate. lia.
Qed.

Lemma zip_with_tabulate {A B C D} (F : A → B → C) (g : D → A) (h : D → B) l :
  zip_with F (map g l) (map h l) = map (λ b, F (g b) (h b)) l.
Proof. induction l; simpl; congruence. Qed.

Lemma zip_with_concat_tabulate {A B C D E} (F : A → B → C)
    (g : D → E → A) (h : D → E → B) (l1 : list D) (l2 : list E) :
  zip_with F (concat (map (λ a, map (g a) l2) l1))
             (concat (map (λ a, map (h a) l2) l1))
  = flat_map (λ a, map (λ b, F (g a b) (h a b)) l2) l1.
Proof.
  induction l1 as [|a l1 IH]; simpl; [done|].
  rewrite zip_with_app by (by rewrite !length_map).
  by rewrite IH, zip_with_tabulate.
Qed.

(** Rows and pixels of a well-formed array. *)
Lemma wf3_row a i :
  wf3 a → (i < (shape3 a).1.1)%nat →
  length (nth i (data3 a) []) = (shape3 a).1.2 ∧
  Forall (λ px, length px = (shape3 a).2) (nth i (data3 a) []).
Proof.
  intros [Hlen Hrows] Hi.
  destruct (nth_lookup_or_length (data3 a) i []) as [Hl|]; [|lia].
  apply (Forall_lookup_1 _ _ _ _ Hrows Hl).
Qed.

Lemma wf3_px a i j :
  wf3 a → (i < (shape3 a).1.1)%nat → (j < (shape3 a).1.2)%nat →
  getpx a i j = Some (nth j (nth i (data3 a) []) []) ∧
  length (nth j (nth i (data3 a) []) []) = (shape3 a).2.
Proof.
  intros Hwf Hi Hj. destruct (wf3_row a i Hwf Hi) as [Hr Hpx].
  destruct Hwf as [Hlen _]. unfold getpx.
  destruct (nth_lookup_or_length (data3 a) i []) as [->|]; [|lia]. simpl.
  destruct (nth_lookup_or_length (nth i (data3 a) []) j []) as [Hl|]; [|lia].
  split; [done|]. apply (Forall_lookup_1 _ _ _ _ Hpx Hl).
Qed.

Lemma wf2_table ker (k : nat) :
  wf2 ker → shape2 ker = (k, k) →
  data2 ker = map (λ a, map (λ b, at2 ker a b) (seq 0 k)) (seq 0 k).
Proof.
  intros [Hlen Hrows] Hsh. rewrite Hsh in *. simpl in *.
  rewrite (tabulate_nth (data2 ker) []) at 1. rewrite Hlen.
  apply map_ext_in. intros a Ha. apply in_seq in Ha.
  unfold at2. rewrite (tabulate_nth (nth a (data2 ker) []) 0%Q) at 1.
  destruct (nth_lookup_or_length (data2 ker) a []) as [Hl|]; [|lia].
  by rewrite (Forall_lookup_1 _ _ _ _ Hrows Hl).
Qed.

(** The data of a window inside the padded image. *)
Lemma window_table pad (n0 n1 nc k : nat) (s ix iy : Z) :
  wf3 pad → shape3 pad = (n0, n1, nc) →
  0 ≤ ix * s → ix * s + Z.of_nat k ≤ Z.of_nat n0 →
  0 ≤ iy * s → iy * s + Z.of_nat k ≤ Z.of_nat n1 →
  data3 (window pad (Z.of_nat k) s ix iy) =
  map (λ a, map (λ b, nth (Z.to_nat (iy * s) + b)
                        (nth (Z.to_nat (ix * s) + a) (data3 pad) []) [])
                (seq 0 k)) (seq 0 k).
Proof.
  intros Hwf Hsh Hx0 Hx1 Hy0 Hy1. unfold window, slice3. rewrite Hsh. simpl.
  pose proof Hwf as [Hlen _]. rewrite Hsh in Hlen. simpl in Hlen.
  rewrite (py_slice_inside (data3 pad) []) by lia.
  rewrite map_map. apply map_ext_in. intros a Ha. apply in_seq in Ha.
  apply py_slice_inside; [done|].
  destruct (wf3_row pad (Z.to_nat (ix * s) + a) Hwf) as [-> _];
    rewrite Hsh; simpl; lia.
Qed.

(** ** The window sum *)

Lemma window_sum_ext ker (P1 P2 : Z → Z → nat → Q) (k : nat) x y ch :
  (∀ a b, (a < k)%nat → (b < k)%nat →
          P1 (x + Z.of_nat a) (y + Z.of_nat b) ch =
          P2 (x + Z.of_nat a) (y + Z.of_nat b) ch) →
  window_sum ker P1 k x y ch = window_sum ker P2 k x y ch.
Proof.
  intros H. unfold window_sum. f_equal.
  rewrite !flat_map_concat_map. f_equal.
  apply map_ext_in. intros a Ha. apply in_seq in Ha.
  apply map_ext_in. intros b Hb. apply in_seq in Hb.
  rewrite H by lia. done.
Qed.

(** Channel [ch] of the tensordot of the kernel with window (ix, iy) is the
    row-major sum of kernel[a][b] * pad[ix*s + a][iy*s + b][ch]. *)
Lemma tensordot_window ker pad (n0 n1 nc k : nat) (s ix iy : Z) (ch : nat) :
  wf2 ker → shape2 ker = (k, k) → wf3 pad → shape3 pad = (n0, n1, nc) →
  0 ≤ ix * s → ix * s + Z.of_nat k ≤ Z.of_nat n0 →
  0 ≤ iy * s → iy * s + Z.of_nat k ≤ Z.of_nat n1 →
  (ch < nc)%nat →
  nth ch (dot (concat (data2 ker))
              (concat (data3 (window pad (Z.of_nat k) s ix iy))) nc) 0%Q
  = window_sum ker (λ r c, at3 pad (Z.to_nat r) (Z.to_nat c)) k
               (ix * s) (iy * s) ch.
Proof.
  intros Hwk Hsk Hwp Hsp Hx0 Hx1 Hy0 Hy1 Hch.
  unfold dot. rewrite nth_tabulate by done.
  rewrite (wf2_table ker k Hwk Hsk) at 1.
  rewrite (window_table pad n0 n1 nc k s ix iy) by done.
  rewrite zip_with_concat_tabulate.
  unfold window_sum. f_equal.
  apply flat_map_ext. intros a. apply map_ext. intros b.
  unfold at3.
  replace (Z.to_nat (iy * s + Z.of_nat b)) with (Z.to_nat (iy * s) + b)%nat
    by lia.
  replace (Z.to_nat (ix * s + Z.of_nat a)) with (Z.to_nat (ix * s) + a)%nat
    by lia.
  done.
Qed.

(** ** The padded image *)

Lemma nth_zero_px nc ch : nth ch (replicate nc 0%Q) 0%Q = 0%Q.
Proof.
  rewrite nth_lookup. destruct (replicate nc 0%Q !! ch) eqn:E; [|done].
  apply lookup_replicate in E. by destruct E.
Qed.

(** Pixel (r, c) of the padded image, for a positive padding. *)
Lemma pad_px img (p : Z) pad (r c : nat) :
  wf3 img → 0 < p → pad_value img p = Ok pad →
  (r < padded_dim (shape3 img).1.1 p)%nat →
  (c < padded_dim (shape3 img).1.2 p)%nat →
  getpx pad r c =
  Some (if bool_decide (p ≤ Z.of_nat r < p + Z.of_nat (shape3 img).1.1 ∧
                        p ≤ Z.of_nat c < p + Z.of_nat (shape3 img).1.2)
        then nth (Z.to_nat (Z.of_nat c - p))
                 (nth (Z.to_nat (Z.of_nat r - p)) (data3 img) []) []
        else replicate (shape3 img).2 0%Q).
Proof.
  intros Hwf Hp Hpad Hr Hc. unfold pad_value, padded_dim in *.
  destruct (0 <? p) eqn:E; [|lia].
  unfold assign_slice3 in Hpad. simpl in Hpad.
  destruct (decide _) in Hpad; [|done].
  inversion Hpad as [Hpad']. clear Hpad Hpad'.
  unfold getpx. simpl.
  rewrite !slice_len_pad, !slice_start_pad by done.
  rewrite list_lookup_imap, lookup_replicate_2 by done. simpl.
  destruct (shape3 img) as [[nx ny] nc] eqn:Hsh. simpl in *.
  case_bool_decide as Hrow.
  - rewrite list_lookup_imap, lookup_replicate_2 by done. simpl.
    case_bool_decide as Hcol.
    + rewrite bool_decide_eq_true_2 by lia.
      destruct (wf3_px img (r - Z.to_nat p) (c - Z.to_nat p) Hwf) as [Hg _];
        rewrite ?Hsh; simpl; try lia.
      unfold getpx in Hg. rewrite Hg. simpl.
      replace (Z.to_nat (Z.of_nat c - p)) with (c - Z.to_nat p)%nat by lia.
      replace (Z.to_nat (Z.of_nat r - p)) with (r - Z.to_nat p)%nat by lia.
      done.
    + rewrite bool_decide_eq_false_2 by lia. done.
  - rewrite lookup_replicate_2 by done.
    rewrite bool_decide_eq_false_2 by lia. done.
Qed.

Lemma wf3_pad img p pad : wf3 img → pad_value img p = Ok pad → wf3 pad.
Proof.
  intros Hwf Hpad. destruct (decide (0 < p)) as [Hp|Hp].
  2:{ unfold pad_value in Hpad. destruct (0 <? p) eqn:E; [lia|]. congruence. }
  destruct (pad_value_shape img p) as (pad' & Hpad' & Hsh).
  assert (pad' = pad) by congruence. subst pad'.
  assert (Hlen : length (data3 pad) = padded_dim (shape3 img).1.1 p).
  { unfold pad_value, padded_dim in *. destruct (0 <? p) eqn:E; [|lia].
    unfold assign_slice3 in Hpad. simpl in Hpad.
    destruct (decide _) in Hpad; [|done].
    inversion Hpad. simpl. by rewrite length_imap, length_replicate. }
  split; rewrite Hsh; simpl; [done|].
  apply Forall_lookup_2. intros r row Hrow.
  assert (Hr : (r < padded_dim (shape3 img).1.1 p)%nat).
  { rewrite <- Hlen. by eapply lookup_lt_Some. }
  assert (Hrl : length row = padded_dim (shape3 img).1.2 p).
  { unfold pad_value, padded_dim in *. destruct (0 <? p) eqn:E; [|lia].
    unfold assign_slice3 in Hpad. simpl in Hpad.
    destruct (decide _) in Hpad; [|done].
    inversion Hpad as [Hd]. rewrite <- Hd in Hrow. simpl in Hrow.
    rewrite list_lookup_imap, lookup_replicate_2 in Hrow by done.
    simpl in Hrow. inversion Hrow.
    case_bool_decide; by rewrite ?length_imap, length_replicate. }
  split; [done|]. apply Forall_lookup_2. intros c px Hpx.
  assert (Hc : (c < padded_dim (shape3 img).1.2 p)%nat).
  { rewrite <- Hrl. by eapply lookup_lt_Some. }
  pose proof (pad_px img p pad r c Hwf Hp Hpad Hr Hc) as Hget.
  unfold getpx in Hget. rewrite Hrow in Hget. simpl in Hget.
  rewrite Hpx in Hget. inversion Hget.
  case_bool_decide as Hin; [|apply length_replicate].
  destruct (wf3_px img (Z.to_nat (Z.of_nat r - p)) (Z.to_nat (Z.of_nat c - p))
              Hwf) as [_ ->]; [lia..|done].
Qed.

(** The padded image holds what the specification describes. *)
Lemma pad_value_at img p pad (r c ch : nat) :
  wf3 img → 0 ≤ p → pad_value img p = Ok pad →
  (r < padded_dim (shape3 img).1.1 p)%nat →
  (c < padded_dim (shape3 img).1.2 p)%nat →
  at3 pad r c ch = spec_padded img p (Z.of_nat r) (Z.of_nat c) ch.
Proof.
  intros Hwf Hp Hpad Hr Hc. unfold spec_padded.
  destruct (decide (0 < p)) as [Hpos|Hzero].
  - pose proof (pad_px img p pad r c Hwf Hpos Hpad Hr Hc) as Hget.
    assert (Hnth : nth c (nth r (data3 pad) []) [] =
              if bool_decide (p ≤ Z.of_nat r < p + Z.of_nat (shape3 img).1.1 ∧
                              p ≤ Z.of_nat c < p + Z.of_nat (shape3 img).1.2)
              then nth (Z.to_nat (Z.of_nat c - p))
                     (nth (Z.to_nat (Z.of_nat r - p)) (data3 img) []) []
              else replicate (shape3 img).2 0%Q).
    { unfold getpx in Hget.
      destruct (data3 pad !! r) as [row|] eqn:Er; [|done]. simpl in Hget.
      rewrite (nth_lookup_Some _ _ _ _ Er).
      by rewrite (nth_lookup_Some _ _ _ _ Hget). }
    unfold at3. rewrite Hnth.
    case_bool_decide; [done | apply nth_zero_px].
  - assert (p = 0) by lia. subst p.
    unfold pad_value in Hpad. simpl in Hpad. inversion Hpad. subst pad.
    unfold padded_dim in *. simpl in *.
    rewrite bool_decide_eq_true_2 by lia.
    rewrite !Z.sub_0_r, !Nat2Z.id. done.
Qed.

(** ** Clamping *)




Lemma clamp_inside x : (0 <= x <= 1)%Q → clamp x = x.
Proof.
  intros [H0 H1]. unfold clamp, Qmax, Qmin, GenericMinMax.gmax,
    GenericMinMax.gmin.
  assert (Hc0 : (x ?= 0)%Q ≠ Lt) by (by apply Qge_alt).
  assert (Hc1 : (x ?= 1)%Q ≠ Gt) by (by apply Qle_alt).
  destruct (x ?= 0)%Q eqn:E0; try congruence;
    destruct (x ?= 1)%Q eqn:E1; congruence.
Qed.

Lemma get3_map3 f a i j ch : get3 (map3 f a) i j ch = f <$> get3 a i j ch.
Proof.
  unfold get3, getpx, map3. simpl. rewrite lookup_map.
  destruct (data3 a !! i) as [row|]; simpl; [|done].
  rewrite lookup_map. destruct (row !! j) as [px|]; simpl; [|done].
  apply lookup_map.
Qed.

Lemma get3_clamped raw i j ch :
  get3 (minimum (maximum raw 0) 1) i j ch = clamp <$> get3 raw i j ch.
Proof.
  unfold minimum, maximum. rewrite !get3_map3.
  by destruct (get3 raw i j ch).
Qed.

Lemma get3_raw_output ker pad k s (n0 n1 nc i j ch : nat) :
  (i < n0)%nat → (j < n1)%nat → (ch < nc)%nat →
  get3 (raw_output ker pad k s n0 n1 nc) i j ch =
  Some (nth ch (dot (concat (data2 ker))
                    (concat (data3 (window pad k s (Z.of_nat i) (Z.of_nat j))))
                    nc) 0%Q).
Proof.
  intros Hi Hj Hch. unfold get3, getpx, raw_output. simpl.
  rewrite lookup_tabulate by done. simpl.
  rewrite lookup_tabulate by done. simpl.
  unfold dot. by rewrite lookup_tabulate, nth_tabulate.
Qed.

Lemma wf3_raw_output ker pad k s n0 n1 nc :
  wf3 (raw_output ker pad k s n0 n1 nc).
Proof.
  split; simpl; [by rewrite length_map, length_seq|].
  apply Forall_forall. intros row Hrow.
  apply list_elem_of_In, in_map_iff in Hrow.
  destruct Hrow as (i & <- & _). split; [by rewrite length_map, length_seq|].
  apply Forall_forall. intros px Hpx.
  apply list_elem_of_In, in_map_iff in Hpx.
  destruct Hpx as (j & <- & _). apply length_dot.
Qed.

Lemma wf3_map3 f a : wf3 a → wf3 (map3 f a).
Proof.
  intros [Hlen Hrows]. split; simpl; [by rewrite length_map|].
  apply Forall_forall. intros row Hrow.
  apply list_elem_of_In, in_map_iff in Hrow.
  destruct Hrow as (r & <- & Hr). apply list_elem_of_In in Hr.
  rewrite Forall_forall in Hrows. destruct (Hrows r Hr) as [Hl Hpx].
  split; [by rewrite length_map|].
  apply Forall_forall. intros px Hin.
  apply list_elem_of_In, in_map_iff in Hin.
  destruct Hin as (q & <- & Hq). apply list_elem_of_In in Hq.
  rewrite length_map. rewrite Forall_forall in Hpx. by apply Hpx.
Qed.

(** ** Elements of well-formed arrays *)

Lemma get3_at3 a i j ch :
  wf3 a → (i < (shape3 a).1.1)%nat → (j < (shape3 a).1.2)%nat →
  (ch < (shape3 a).2)%nat →
  get3 a i j ch = Some (at3 a i j ch).
Proof.
  intros Hwf Hi Hj Hch. destruct (wf3_px a i j Hwf Hi Hj) as [Hg Hl].
  unfold get3, at3. rewrite Hg. simpl.
  destruct (nth_lookup_or_length (nth j (nth i (data3 a) []) []) ch 0%Q);
    [done | lia].
Qed.

Lemma get3_outside a i j ch :
  wf3 a →
  ¬ ((i < (shape3 a).1.1)%nat ∧ (j < (shape3 a).1.2)%nat ∧
     (ch < (shape3 a).2)%nat) →
  get3 a i j ch = None.
Proof.
  intros [Hlen Hrows] Hout. unfold get3, getpx.
  destruct (data3 a !! i) as [row|] eqn:Er; simpl; [|done].
  pose proof (lookup_lt_Some _ _ _ Er) as Hi.
  destruct (Forall_lookup_1 _ _ _ _ Hrows Er) as [Hrl Hpx].
  destruct (row !! j) as [px|] eqn:Ep; simpl; [|done].
  pose proof (lookup_lt_Some _ _ _ Ep) as Hj.
  pose proof (Forall_lookup_1 _ _ _ _ Hpx Ep) as Hpl. simpl in Hpl.
  apply lookup_ge_None_2. lia.
Qed.

(** Two well-formed arrays of one shape with the same elements are equal. *)
Lemma wf3_ext a b :
  wf3 a → wf3 b → shape3 a = shape3 b →
  (∀ i j ch, get3 a i j ch = get3 b i j ch) → a = b.
Proof.
  intros [Hla Hra] [Hlb Hrb] Hsh Hget.
  destruct a as [sa da], b as [sb db]. simpl in *. subst sb. f_equal.
  apply list_eq. intros i.
  destruct (da !! i) as [ra|] eqn:Ea; destruct (db !! i) as [rb|] eqn:Eb.
  - f_equal.
    destruct (Forall_lookup_1 _ _ _ _ Hra Ea) as [Hal Hap].
    destruct (Forall_lookup_1 _ _ _ _ Hrb Eb) as [Hbl Hbp].
    apply list_eq. intros j.
    destruct (ra !! j) as [pa|] eqn:Epa; destruct (rb !! j) as [pb|] eqn:Epb.
    + f_equal. apply list_eq. intros ch.
      specialize (Hget i j ch). unfold get3, getpx in Hget. simpl in Hget.
      rewrite Ea, Eb in Hget. simpl in Hget. by rewrite Epa, Epb in Hget.
    + apply lookup_lt_Some in Epa. apply lookup_ge_None in Epb. lia.
    + apply lookup_lt_Some in Epb. apply lookup_ge_None in Epa. lia.
    + done.
  - apply lookup_lt_Some in Ea. apply lookup_ge_None in Eb. lia.
  - apply lookup_lt_Some in Eb. apply lookup_ge_None in Ea. lia.
  - done.
Qed.

(** ** The functional model on calls that get through *)

Lemma out_dim_code (n k : nat) (p s : Z) :
  (Z.of_nat n + p * 2 - Z.of_nat k) / s + 1 = out_dim n k p s.
Proof. unfold out_dim. do 2 f_equal. lia. Qed.

Lemma padded_dim_nonneg n p :
  0 ≤ p → Z.of_nat (padded_dim n p) = Z.of_nat n + p * 2.
Proof. intros. unfold padded_dim. destruct (0 <? p) eqn:E; lia. Qed.

Lemma conv_value_fits img ker (k : nat) (p s : Z) :
  shape2 ker = (k, k) → 1 ≤ s →
  - s ≤ Z.of_nat (shape3 img).1.1 + 2 * p - Z.of_nat k →
  - s ≤ Z.of_nat (shape3 img).1.2 + 2 * p - Z.of_nat k →
  ∃ pad,
    pad_value img p = Ok pad ∧
    shape3 pad = (padded_dim (shape3 img).1.1 p,
                  padded_dim (shape3 img).1.2 p, (shape3 img).2) ∧
    conv_value img ker p s =
    Ok (minimum (maximum
          (raw_output ker pad (Z.of_nat k) s
             (Z.to_nat (out_dim (shape3 img).1.1 k p s))
             (Z.to_nat (out_dim (shape3 img).1.2 k p s))
             (shape3 img).2) 0) 1).
Proof.
  intros Hker Hs Hdx Hdy.
  destruct (pad_value_shape img p) as (pad & Hpad & Hsh).
  exists pad. split; [done|]. split; [done|].
  unfold conv_value. rewrite Hpad. simpl.
  rewrite <- !out_dim_code.
  eapply output_value_fits; eauto using padded_dim_ge; lia.
Qed.

(** The unclamped output of a call: its shape and its elements. *)
Lemma conv_value_raw img ker (k : nat) (p s : Z) :
  wf3 img → wf2 ker → shape2 ker = (k, k) → 0 ≤ p → 1 ≤ s →
  - s ≤ Z.of_nat (shape3 img).1.1 + 2 * p - Z.of_nat k →
  - s ≤ Z.of_nat (shape3 img).1.2 + 2 * p - Z.of_nat k →
  ∃ raw,
    conv_value img ker p s = Ok (minimum (maximum raw 0) 1) ∧
    wf3 raw ∧
    shape3 raw = (Z.to_nat (out_dim (shape3 img).1.1 k p s),
                  Z.to_nat (out_dim (shape3 img).1.2 k p s), (shape3 img).2) ∧
    ∀ i j ch,
      Z.of_nat i < out_dim (shape3 img).1.1 k p s →
      Z.of_nat j < out_dim (shape3 img).1.2 k p s →
      (ch < (shape3 img).2)%nat →
      get3 raw i j ch =
      Some (window_sum ker (spec_padded img p) k
              (Z.of_nat i * s) (Z.of_nat j * s) ch).
Proof.
  intros Hwf Hwk Hker Hp Hs Hdx Hdy.
  destruct (conv_value_fits img ker k p s Hker Hs Hdx Hdy)
    as (pad & Hpad & Hsh & Hval).
  eexists. split; [exact Hval|]. split; [apply wf3_raw_output|].
  split; [done|]. intros i j ch Hi Hj Hch.
  rewrite get3_raw_output by lia. f_equal.
  pose proof (wf3_pad img p pad Hwf Hpad) as Hwp.
  pose proof (padded_dim_nonneg (shape3 img).1.1 p Hp) as Hn0.
  pose proof (padded_dim_nonneg (shape3 img).1.2 p Hp) as Hn1.
  set (dx := Z.of_nat (shape3 img).1.1 + 2 * p - Z.of_nat k) in *.
  set (dy := Z.of_nat (shape3 img).1.2 + 2 * p - Z.of_nat k) in *.
  assert (Hfx : 0 ≤ Z.of_nat i * s ∧ Z.of_nat i * s ≤ dx).
  { unfold out_dim in Hi. fold dx in Hi.
    pose proof (div_positive_fit dx s Hs).
    apply (last_window_fits dx s (Z.of_nat i) (dx / s + 1)); lia. }
  assert (Hfy : 0 ≤ Z.of_nat j * s ∧ Z.of_nat j * s ≤ dy).
  { unfold out_dim in Hj. fold dy in Hj.
    pose proof (div_positive_fit dy s Hs).
    apply (last_window_fits dy s (Z.of_nat j) (dy / s + 1)); lia. }
  erewrite tensordot_window; eauto; try lia.
  apply window_sum_ext. intros a b Ha Hb.
  rewrite (pad_value_at img p pad) by (done || lia).
  rewrite !Z2Nat.id by lia. done.
Qed.

Lemma Qsum_single_product (x : Q) : Qsum [Qmult 1 x] = x.
Proof.
  destruct x as [n d]. unfold Qsum, Qplus, Qmult. simpl.
  f_equal. destruct n; simpl; f_equal; lia.
Qed.

Lemma out_dim_identity (n : nat) : out_dim n 1 0 1 = Z.of_nat n.
Proof. unfold out_dim. rewrite Z.div_1_r. lia. Qed.

(** ** What a call returns *)

Lemma convolve2D_returns h a b img ker p s out :
  h !! a = Some (Nd3 img) → h !! b = Some (Nd2 ker) →
  conv_value img ker p s = Ok out →
  returns (convolve2D a b p s h) out.
Proof.
  intros Ha Hb Hv.
  destruct (convolve2D_exec h a b img ker p s Ha Hb) as (hs & Hh & Hr).
  rewrite Hv in Hr. destruct Hr as (o & Ho & _ & Hl).
  exists o. by rewrite Hh.
Qed.


Lemma returns_not_raises r out : returns r out → ¬ raises r.1.
Proof. intros (o & Ho & _) [e He]. congruence. Qed.

(** A call that returns was given a rank-3 image and a matrix kernel. *)
Lemma convolve2D_ok_args h a b p s o :
  (convolve2D a b p s h).1 = Ok o →
  ∃ img ker, h !! a = Some (Nd3 img) ∧ h !! b = Some (Nd2 ker).
Proof.
  intros Hok.
  destruct (h !! a) as [[x|img]|] eqn:Ha.
  1,3: rewrite convolve2D_no_image in Hok by congruence; done.
  destruct (h !! b) as [[ker|x]|] eqn:Hb; [by eauto|..].
  all: destruct (convolve2D_no_kernel h a b img p s Ha) as (hs & e & Hrun);
    [congruence | rewrite Hrun in Hok; done].
Qed.

(** ** The claims *)

Lemma valid_call_deficit img ker p s :
  valid_call img ker p s →
  shape2 ker = ((shape2 ker).1, (shape2 ker).1) ∧
  - s ≤ Z.of_nat (shape3 img).1.1 + 2 * p - Z.of_nat (shape2 ker).1 ∧
  - s ≤ Z.of_nat (shape3 img).1.2 + 2 * p - Z.of_nat (shape2 ker).1.
Proof.
  intros [? ? ? ? ? Hsq ? ? ? ? ?]. split; [|lia].
  destruct (shape2 ker) as [k0 k1]. simpl in *. by subst.
Qed.










(** C5, as stated, fails: with stride -1, a 3 x 3 image and a 3 x 3 kernel
    the call raises nothing. *)
Lemma convolve2D_negative_stride_no_error :
  -1 ≤ 0 ∧
  ¬ raises (convolve2D 0%nat 1%nat 0 (-1)
              [Nd3 (img_of 3 3 1 ramp); Nd2 sobel]).1.
Proof.
  split; [lia|]. intros [e He]. vm_compute in He. discriminate.
Qed.

(** C5, amended: with stride 0 the call fails, with ZeroDivisionError raised
    by the floor division that computes the output shape; with a positive
    padding the padded image has been built by then, in one new cell. *)
Theorem convolve2D_zero_stride h a b img ker p :
  h !! a = Some (Nd3 img) → h !! b = Some (Nd2 ker) →
  ∃ hs, convolve2D a b p 0 h = (Err ZeroDivisionError, h ++ hs) ∧
        (0 < p → ∃ pad, hs = [Nd3 pad]) ∧
        (p ≤ 0 → hs = []).
Proof.
  intros Ha Hb. rewrite convolve2D_unfold.
  unfold bind at 1. unfold load3 at 1. rewrite Ha.
  destruct (padding_exec h a img p Ha) as (hs & Hhs & Hpad).
  destruct (pad_value_shape img p) as (pad & Hpv & _). rewrite Hpv in Hpad.
  destruct Hpad as (pl & Hrun & Hpl).
  exists hs. unfold bind. rewrite Hrun. split.
  - unfold after_padding, bind, load2.
    by rewrite (lookup_app_l_Some _ _ _ _ Hb).
  - destruct (0 <? p) eqn:E; split; intros; try lia; done.
Qed.

Lemma convolve2D_zero_stride_witness :
  (convolve2D 0%nat 1%nat 1 0 [Nd3 (img_of 4 4 1 ramp); Nd2 sobel]).1
  = Err ZeroDivisionError.
Proof.
  destruct (convolve2D_zero_stride [Nd3 (img_of 4 4 1 ramp); Nd2 sobel]
              0%nat 1%nat (img_of 4 4 1 ramp) sobel 1 eq_refl eq_refl)
    as (hs & Hrun & _).
  rewrite Hrun. reflexivity.
Defined.






(** C8: with the 1 x 1 kernel holding 1.0, padding 0 and stride 1, the call
    returns an array of the shape of the input whose elements are the input
    elements clamped to [0, 1]; when every input element already lies in
    [0, 1], the returned array equals the input. *)
Theorem convolve2D_identity h a b img :
  h !! a = Some (Nd3 img) → h !! b = Some (Nd2 identity_kernel) →
  wf3 img →
  ∃ out, returns (convolve2D a b 0 1 h) out ∧
    shape3 out = shape3 img ∧
    (∀ i j ch, get3 out i j ch = clamp <$> get3 img i j ch) ∧
    ((∀ i j ch x, get3 img i j ch = Some x → (0 <= x <= 1)%Q) → out = img).
Proof.
  intros Ha Hb Hwf.
  destruct (conv_value_raw img identity_kernel 1 0 1)
    as (raw & Hval & Hwr & Hsh & Hraw); try done; try (simpl; lia).
  { split; [done | repeat constructor]. }
  rewrite !out_dim_identity, !Nat2Z.id in Hsh.
  assert (Hsh' : shape3 raw = shape3 img).
  { rewrite Hsh. by destruct (shape3 img) as [[? ?] ?]. }
  assert (Hsame : ∀ i j ch, get3 raw i j ch = get3 img i j ch).
  { intros i j ch.
    destruct (decide ((i < (shape3 img).1.1)%nat ∧ (j < (shape3 img).1.2)%nat ∧
                      (ch < (shape3 img).2)%nat)) as [(Hi & Hj & Hch)|Hout].
    - rewrite Hraw by (rewrite ?out_dim_identity; lia).
      rewrite get3_at3 by done. f_equal.
      unfold window_sum. simpl. rewrite Qsum_single_product.
      unfold spec_padded. rewrite bool_decide_eq_true_2 by lia.
      f_equal; lia.
    - rewrite (get3_outside img) by done.
      apply get3_outside; [done|]. by rewrite Hsh'. }
  exists (minimum (maximum raw 0) 1).
  split; [by eapply convolve2D_returns|]. split; [done|]. split.
  - intros i j ch. by rewrite get3_clamped, Hsame.
  - intros Hunit. apply wf3_ext; [by apply wf3_map3, wf3_map3 | done | done |].
    intros i j ch. rewrite get3_clamped, Hsame.
    destruct (get3 img i j ch) as [x|] eqn:E; simpl; [|done].
    f_equal. apply clamp_inside. by eapply Hunit.
Qed.

Lemma convolve2D_identity_witness :
  wf3 (img_of 2 3 2 ramp) ∧
  ∃ out,
    returns (convolve2D 0%nat 1%nat 0 1
               [Nd3 (img_of 2 3 2 ramp); Nd2 identity_kernel]) out ∧
    shape3 out = (2, 3, 2)%nat.
Proof.
  assert (Hwf : wf3 (img_of 2 3 2 ramp)).
  { split; [reflexivity | repeat constructor]. }
  split; [exact Hwf|].
  destruct (convolve2D_identity [Nd3 (img_of 2 3 2 ramp); Nd2 identity_kernel]
              0%nat 1%nat (img_of 2 3 2 ramp) eq_refl eq_refl Hwf)
    as (out & Hret & Hsh & _).
  exists out. split; [exact Hret | exact Hsh].
Defined.

(** C9: whatever the arguments, every cell of the initial store, so the
    input image and the kernel, holds the same array after the call, and a
    returned array lives in a cell that did not exist before the call: it
    is a new array that shares no storage with the arguments. *)
Theorem convolve2D_pure h a b p s :
  (∀ l x, h !! l = Some x → (convolve2D a b p s h).2 !! l = Some x) ∧
  (∀ o, (convolve2D a b p s h).1 = Ok o →
        h !! o = None ∧ o ≠ a ∧ o ≠ b ∧
        ∃ out, (convolve2D a b p s h).2 !! o = Some (Nd3 out)).
Proof.
  split.
  - destruct (convolve2D_frame h a b p s) as (hs & Hh & _).
    intros l x Hl. rewrite Hh. by apply lookup_app_l_Some.
  - intros o Hok.
    destruct (convolve2D_ok_args h a b p s o Hok) as (img & ker & Ha & Hb).
    destruct (convolve2D_exec h a b img ker p s Ha Hb) as (hs & Hh & Hv).
    destruct (conv_value img ker p s) as [out|e]; [|congruence].
    destruct Hv as (o' & Ho' & Hle & Hlook).
    assert (o' = o) by congruence. subst o'.
    apply lookup_lt_Some in Ha. apply lookup_lt_Some in Hb.
    split; [by apply lookup_ge_None_2|]. split; [lia|]. split; [lia|].
    exists out. by rewrite Hh.
Qed.

(** C10, as stated, fails: for a 4 x 2 image and a kernel of side 5, with
    padding 0 and stride 1, -s <= R + 2p - k < 0 holds, but C + 2p - k = -3
    makes the column dimension negative and the allocation of the output
    raises. *)
Lemma convolve2D_deficit_other_axis_raises :
  (- 1 ≤ Z.of_nat 4 + 2 * 0 - Z.of_nat 5 < 0) ∧
  raises (convolve2D 0%nat 1%nat 0 1
            [Nd3 (img_of 4 2 1 ramp); Nd2 (ker_of 5 5 (λ _ _, 1%Q))]).1.
Proof.
  split; [lia|]. exists NegativeDimensions. vm_compute. reflexivity.
Qed.

(** C10, amended: when the deficit of both axes is at most one stride and
    that of one axis is negative (-s <= R + 2p - k and -s <= C + 2p - k, one
    of them < 0), the call raises nothing and returns an array without
    elements, of shape ((R + 2p - k) // s + 1, (C + 2p - k) // s + 1, N),
    where the dimension of each axis with a negative deficit is 0. *)
Theorem convolve2D_empty_output h a b img ker p s :
  h !! a = Some (Nd3 img) → h !! b = Some (Nd2 ker) →
  (shape2 ker).1 = (shape2 ker).2 →
  let dx := Z.of_nat (shape3 img).1.1 + 2 * p - Z.of_nat (shape2 ker).1 in
  let dy := Z.of_nat (shape3 img).1.2 + 2 * p - Z.of_nat (shape2 ker).1 in
  - s ≤ dx → - s ≤ dy → dx < 0 ∨ dy < 0 →
  ∃ out, returns (convolve2D a b p s h) out ∧
    ¬ raises (convolve2D a b p s h).1 ∧
    shapeZ out = (dx / s + 1, dy / s + 1, Z.of_nat (shape3 img).2) ∧
    (dx < 0 → (shape3 out).1.1 = 0%nat) ∧
    (dy < 0 → (shape3 out).1.2 = 0%nat) ∧
    (∀ i j ch, get3 out i j ch = None).
Proof.
  intros Ha Hb Hsq dx dy Hdx Hdy Hneg.
  assert (Hs : 1 ≤ s) by lia.
  destruct (conv_value_fits img ker (shape2 ker).1 p s) as (pad & _ & _ & Hv);
    try done.
  { destruct (shape2 ker) as [k0 k1]. simpl in *. by subst. }
  set (raw := raw_output _ _ _ _ _ _ _) in Hv.
  assert (Hret : returns (convolve2D a b p s h) (minimum (maximum raw 0) 1))
    by (by eapply convolve2D_returns).
  assert (Hwo : wf3 (minimum (maximum raw 0) 1))
    by (apply wf3_map3, wf3_map3, wf3_raw_output).
  exists (minimum (maximum raw 0) 1).
  split; [done|]. split; [by eapply returns_not_raises|].
  assert (Hx0 : dx < 0 → (shape3 (minimum (maximum raw 0) 1)).1.1 = 0%nat).
  { intros Hlt. simpl. unfold out_dim. fold dx.
    rewrite (div_deficit dx s) by lia. done. }
  assert (Hy0 : dy < 0 → (shape3 (minimum (maximum raw 0) 1)).1.2 = 0%nat).
  { intros Hlt. simpl. unfold out_dim. fold dy.
    rewrite (div_deficit dy s) by lia. done. }
  split; [|split; [done|split; [done|]]].
  - unfold shapeZ. simpl. unfold out_dim. fold dx dy.
    rewrite !Z2Nat.id; [done|apply div_deficit_nonneg; lia..].
  - intros i j ch. apply get3_outside; [done|].
    destruct Hneg as [Hlt|Hlt]; [rewrite (Hx0 Hlt) | rewrite (Hy0 Hlt)]; lia.
Qed.

Lemma convolve2D_empty_output_witness :
  ∃ out,
    returns (convolve2D 0%nat 1%nat 0 1
               [Nd3 (img_of 4 4 1 ramp); Nd2 (ker_of 5 5 (λ _ _, 1%Q))]) out ∧
    shapeZ out = (0, 0, 1).
Proof.
  destruct (convolve2D_empty_output
              [Nd3 (img_of 4 4 1 ramp); Nd2 (ker_of 5 5 (λ _ _, 1%Q))]
              0%nat 1%nat (img_of 4 4 1 ramp) (ker_of 5 5 (λ _ _, 1%Q)) 0 1
              eq_refl eq_refl eq_refl)
    as (out & Hret & _ & Hsh & _); simpl; try lia.
  exists out. split; [exact Hret | exact Hsh].
Defined.

(** * Further properties of convolve2D *)

(** ** Sums up to equality of rationals *)

Lemma fold_left_Qplus_Qeq (l : list Q) (a a' : Q) :
  (a == a')%Q → (fold_left Qplus l a == fold_left Qplus l a')%Q.
Proof.
  revert a a'. induction l as [|x l IH]; intros a a' Ha; simpl; [done|].
  apply IH. by rewrite Ha.
Qed.








(** ** The window sum as a sum over the pairs (a, b) *)





(** ** Valid calls, once more *)

Lemma conv_value_valid img ker p s :
  valid_call img ker p s →
  ∃ raw,
    conv_value img ker p s = Ok (minimum (maximum raw 0) 1) ∧
    wf3 raw ∧
    shape3 raw = (Z.to_nat (out_dim (shape3 img).1.1 (shape2 ker).1 p s),
                  Z.to_nat (out_dim (shape3 img).1.2 (shape2 ker).1 p s),
                  (shape3 img).2) ∧
    ∀ i j ch,
      Z.of_nat i < out_dim (shape3 img).1.1 (shape2 ker).1 p s →
      Z.of_nat j < out_dim (shape3 img).1.2 (shape2 ker).1 p s →
      (ch < (shape3 img).2)%nat →
      get3 raw i j ch =
      Some (window_sum ker (spec_padded img p) (shape2 ker).1
              (Z.of_nat i * s) (Z.of_nat j * s) ch).
Proof.
  intros Hv. destruct (valid_call_deficit img ker p s Hv) as (Hsq & Hdx & Hdy).
  destruct Hv. by apply conv_value_raw.
Qed.


Lemma out_dim_inside (n k : nat) (p s : Z) (i : nat) :
  1 ≤ s → - s ≤ Z.of_nat n + 2 * p - Z.of_nat k →
  (i < Z.to_nat (out_dim n k p s))%nat → Z.of_nat i < out_dim n k p s.
Proof. intros. lia. Qed.


(** ** Zero kernel *)



(** ** Channels *)




(** ** Flat regions *)



(** ** Stride and padding *)



(** With stride 1 each spatial dimension changes by 2p - k + 1, so a kernel
    of odd side k = 2p + 1 keeps the size of the image: the call of the
    notebook, padding 1 with a 3 x 3 kernel, returns an image of the size of
    its input. *)
Theorem convolve2D_same_size h a b img ker p :
  h !! a = Some (Nd3 img) → h !! b = Some (Nd2 ker) →
  valid_call img ker p 1 →
  ∃ out, returns (convolve2D a b p 1 h) out ∧
    shapeZ out =
      (Z.of_nat (shape3 img).1.1 + (2 * p - Z.of_nat (shape2 ker).1 + 1),
       Z.of_nat (shape3 img).1.2 + (2 * p - Z.of_nat (shape2 ker).1 + 1),
       Z.of_nat (shape3 img).2) ∧
    (Z.of_nat (shape2 ker).1 = 2 * p + 1 → shape3 out = shape3 img).
Proof.
  intros Ha Hb Hv.
  destruct (conv_value_valid img ker p 1 Hv) as (raw & Hval & _ & Hshr & _).
  destruct Hv.
  assert (Hone : ∀ n, out_dim n (shape2 ker).1 p 1 =
                      Z.of_nat n + (2 * p - Z.of_nat (shape2 ker).1 + 1)).
  { intros n. unfold out_dim. rewrite Z.div_1_r. lia. }
  rewrite !Hone in Hshr.
  exists (minimum (maximum raw 0) 1). split; [by eapply convolve2D_returns|].
  split.
  - unfold shapeZ. simpl. rewrite Hshr. simpl. rewrite !Z2Nat.id by lia. done.
  - intros Hk. simpl. rewrite Hshr, Hk.
    destruct (shape3 img) as [[nx ny] nc]. simpl. do 2 f_equal; f_equal; lia.
Qed.

Lemma convolve2D_same_size_witness :
  valid_call (img_of 4 5 2 ramp) sobel 1 1 ∧
  ∃ out,
    returns (convolve2D 0%nat 1%nat 1 1
               [Nd3 (img_of 4 5 2 ramp); Nd2 sobel]) out ∧
    shape3 out = (4, 5, 2)%nat.
Proof.
  assert (Hv : valid_call (img_of 4 5 2 ramp) sobel 1 1) by valid_call_tac.
  split; [exact Hv|].
  destruct (convolve2D_same_size [Nd3 (img_of 4 5 2 ramp); Nd2 sobel]
              0%nat 1%nat (img_of 4 5 2 ramp) sobel 1 eq_refl eq_refl Hv)
    as (out & Hret & _ & Hsame).
  exists out. split; [exact Hret|]. apply Hsame. reflexivity.
Defined.

(** ** A kernel that is not square *)






(** ** The identity kernel after a call *)




(** ** Allocations *)




(** * Cells of the other notebooks *)

(** ** The two halves of the data set *)

Lemma omap_tabulate {A B} (f : A → option B) (g : A → B) (l : list A) :
  (∀ x, In x l → f x = Some (g x)) → omap f l = map g l.
Proof.
  induction l as [|x l IH]; intros H; simpl; [done|].
  rewrite (H x) by (by left). f_equal. apply IH. intros y Hy. apply H. by right.
Qed.

Lemma slice_step_count (n a step q : Z) :
  0 < step → 0 ≤ a < n → 0 ≤ q →
  q < (n - a - 1) / step + 1 ↔ a + q * step < n.
Proof.
  intros Hs Ha Hq.
  pose proof (Z.div_mod (n - a - 1) step ltac:(lia)) as Hdm.
  pose proof (Z.mod_pos_bound (n - a - 1) step Hs) as Hmb.
  split; intros H; nia.
Qed.

(** Cell i of [l[start::step]] is cell start + i * step of [l]. *)
Lemma py_slice_step_lookup {A} (start : nat) (step : positive) (l : list A)
    (i : nat) :
  py_slice_step (Z.of_nat start) step l !! i
  = l !! (start + i * Pos.to_nat step)%nat.
Proof.
  unfold py_slice_step, adjust_index.
  destruct (Z.of_nat start <? 0) eqn:E; [apply Z.ltb_lt in E; lia|]. clear E.
  set (n := Z.of_nat (length l)).
  destruct (Z.min (Z.of_nat start) n <? n) eqn:Hlt.
  2:{ apply Z.ltb_ge in Hlt. simpl. symmetry. apply lookup_ge_None_2.
      unfold n in Hlt. lia. }
  apply Z.ltb_lt in Hlt.
  assert (Hmin : Z.min (Z.of_nat start) n = Z.of_nat start) by lia.
  rewrite Hmin.
  destruct l as [|d l']; [simpl in *; lia|].
  set (l := d :: l') in *.
  set (count := (n - Z.of_nat start - 1) / Z.pos step + 1).
  assert (Hcount : ∀ q : nat, Z.of_nat q < count ↔
                     (start + q * Pos.to_nat step < length l)%nat).
  { intros q. unfold count.
    rewrite (slice_step_count n (Z.of_nat start) (Z.pos step) (Z.of_nat q))
      by lia. unfold n. lia. }
  rewrite (omap_tabulate _
             (λ q, nth (start + q * Pos.to_nat step) l d)).
  2:{ intros q Hq. apply in_seq in Hq.
      replace (Z.to_nat (Z.of_nat start + Z.of_nat q * Z.pos step))
        with (start + q * Pos.to_nat step)%nat by lia.
      destruct (nth_lookup_or_length l (start + q * Pos.to_nat step) d)
        as [->|Hge]; [done|].
      pose proof (proj1 (Hcount q)). lia. }
  destruct (decide (Z.of_nat i < count)) as [Hi|Hi].
  - rewrite lookup_tabulate by lia.
    destruct (nth_lookup_or_length l (start + i * Pos.to_nat step) d)
      as [->|Hge]; [done|].
    pose proof (proj1 (Hcount i)). lia.
  - rewrite lookup_ge_None_2 by (rewrite length_map, length_seq; lia).
    symmetry. apply lookup_ge_None_2.
    pose proof (proj2 (Hcount i)). lia.
Qed.

Lemma py_slice_step_length {A} (start : nat) (l : list A) :
  (start ≤ 1)%nat →
  length (py_slice_step (Z.of_nat start) 2 l) = ((length l + 1 - start) / 2)%nat.
Proof.
  intros Hs.
  set (m := ((length l + 1 - start) / 2)%nat).
  assert (Hm : (2 * m ≤ length l + 1 - start < 2 * m + 2)%nat).
  { unfold m. pose proof (Nat.div_mod_eq (length l + 1 - start) 2).
    pose proof (Nat.mod_upper_bound (length l + 1 - start) 2). lia. }
  destruct (decide (length (py_slice_step (Z.of_nat start) 2 l) = m))
    as [|Hne]; [done|].
  exfalso.
  destruct (decide (length (py_slice_step (Z.of_nat start) 2 l) < m)%nat)
    as [Hlt|Hge].
  - pose proof (lookup_ge_None_2 (py_slice_step (Z.of_nat start) 2 l)
                  (m - 1) ltac:(lia)) as Hn.
    rewrite py_slice_step_lookup in Hn. apply lookup_ge_None in Hn. lia.
  - destruct (lookup_lt_is_Some_2 (py_slice_step (Z.of_nat start) 2 l) m)
      as [x Hx]; [lia|].
    rewrite py_slice_step_lookup in Hx. apply lookup_lt_Some in Hx. lia.
Qed.

(** The two fits see disjoint halves that cover the data set: sample 2i goes
    to the first fit and sample 2i + 1 to the second, each with its own
    label, and the first half has the extra sample of an odd data set. *)
Theorem fit_halves_partition {A B} (X : list A) (y : list B) :
  length X = length y →
  (∀ i, (fit_even_args X y).1 !! i = X !! (2 * i)%nat ∧
        (fit_even_args X y).2 !! i = y !! (2 * i)%nat ∧
        (fit_odd_args X y).1 !! i = X !! (2 * i + 1)%nat ∧
        (fit_odd_args X y).2 !! i = y !! (2 * i + 1)%nat) ∧
  length (fit_even_args X y).1 = length (fit_even_args X y).2 ∧
  length (fit_odd_args X y).1 = length (fit_odd_args X y).2 ∧
  (length (fit_even_args X y).1 + length (fit_odd_args X y).1 = length X)%nat ∧
  (length (fit_odd_args X y).1 ≤ length (fit_even_args X y).1
     ≤ length (fit_odd_args X y).1 + 1)%nat.
Proof.
  intros Hlen. unfold fit_even_args, fit_odd_args. simpl.
  split.
  - intros i.
    rewrite !(py_slice_step_lookup 0 2), !(py_slice_step_lookup 1 2).
    repeat split; f_equal; lia.
  - rewrite !(py_slice_step_length 0), !(py_slice_step_length 1) by lia.
    rewrite Hlen.
    pose proof (Nat.div_mod_eq (length y + 1 - 0) 2).
    pose proof (Nat.mod_upper_bound (length y + 1 - 0) 2).
    pose proof (Nat.div_mod_eq (length y + 1 - 1) 2).
    pose proof (Nat.mod_upper_bound (length y + 1 - 1) 2).
    repeat split; lia.
Qed.

Lemma fit_halves_partition_witness :
  fit_even_args [10; 11; 12; 13; 14] [0; 1; 0; 1; 0] = ([10; 12; 14], [0; 0; 0]) ∧
  fit_odd_args [10; 11; 12; 13; 14] [0; 1; 0; 1; 0] = ([11; 13], [1; 1]) ∧
  (length (fit_even_args [10; 11; 12; 13; 14] [0; 1; 0; 1; 0]).1 +
   length (fit_odd_args [10; 11; 12; 13; 14] [0; 1; 0; 1; 0]).1 = 5)%nat.
Proof.
  split; [reflexivity|]. split; [reflexivity|].
  apply (fit_halves_partition [10; 11; 12; 13; 14] [0; 1; 0; 1; 0] eq_refl).
Defined.

(** ** The feature columns *)

Lemma length_filter_split {A} (P : A → Prop) `{∀ x, Decision (P x)}
    (l : list A) :
  (length (filter P l) + length (filter (λ x, ¬ P x) l) = length l)%nat.
Proof.
  induction l as [|x l IH]; [done|].
  rewrite !filter_cons. destruct (decide (P x)) as [Hp|Hp].
  - rewrite decide_False by tauto. simpl. lia.
  - rewrite decide_True by done. simpl. lia.
Qed.

(** The target column never becomes a feature: [cols] keeps every other
    column, in order, and drops each occurrence of 'gllbsc_gap'.  So the
    number of features is [len(oxides.columns) - 1], the [max_features] of
    the first regressor, exactly when the target occurs once among the
    columns. *)
Theorem cols_drops_target (columns : list string) :
  ("gllbsc_gap"%string ∉ cols columns) ∧
  (∀ a, a ∈ cols columns ↔ a ∈ columns ∧ a ≠ "gllbsc_gap"%string) ∧
  sublist (cols columns) columns ∧
  (length (cols columns) +
   length (filter (λ a, a = "gllbsc_gap"%string) columns) = length columns)%nat ∧
  (max_features columns = Z.of_nat (length (cols columns)) ↔
   length (filter (λ a, a = "gllbsc_gap"%string) columns) = 1%nat).
Proof.
  assert (Hmem : ∀ a, a ∈ cols columns ↔ a ∈ columns ∧ a ≠ "gllbsc_gap"%string).
  { intros a. unfold cols. rewrite list_elem_of_filter.
    rewrite list_elem_of_singleton. tauto. }
  assert (Hlen : (length (cols columns) +
            length (filter (λ a, a = "gllbsc_gap"%string) columns)
            = length columns)%nat).
  { rewrite <- (length_filter_split (λ a, a = "gllbsc_gap"%string) columns).
    rewrite Nat.add_comm. f_equal. unfold cols. f_equal.
    apply list_filter_iff. intros a. rewrite list_elem_of_singleton. tauto. }
  split; [|split; [done|split; [|split; [done|]]]].
  - rewrite Hmem. tauto.
  - unfold cols. apply sublist_filter.
  - unfold max_features. lia.
Qed.

(** ** The test score at each boosting step *)

Lemma staged_loop_fits {P} (loss : P → Q) (stages : list P) :
  ∀ (i : nat) (ts : list Q) (y0 : P),
    (i + length stages ≤ length ts)%nat →
    staged_loop loss i stages (Scores ts y0) =
    (Ok tt, Scores (take i ts ++ map loss stages
                    ++ drop (i + length stages) ts)
                   (default y0 (last stages))).
Proof.
  induction stages as [|yp rest IH]; intros i ts y0 Hlen; simpl in *.
  - rewrite Nat.add_0_r, take_drop. done.
  - rewrite decide_True by lia.
    rewrite IH by (rewrite length_insert; lia).
    f_equal. f_equal.
    + rewrite (take_S_r _ _ _ (list_lookup_insert_eq ts i (loss yp) ltac:(lia))).
      rewrite take_insert_ge by lia. rewrite drop_insert_lt by lia.
      rewrite <- app_assoc. simpl. do 4 f_equal. lia.
    + rewrite last_cons. by destruct (last rest).
Qed.

(** When [staged_predict] yields no more stages than [test_score] has cells,
    the loop raises nothing: the scores of the stages come first, in order,
    and the cells left keep their 0.  With exactly as many stages as cells
    (150 and 150 in the notebook), [y_pred] is left on the last stage, so
    the final loss of the next cell is the last entry of [test_score]. *)
Theorem staged_scores_fit {P} (n : nat) (loss : P → Q) (stages : list P)
    (y0 : P) :
  (length stages ≤ n)%nat →
  staged_scores n loss stages y0 =
    (Ok tt, Scores (map loss stages ++ replicate (n - length stages) 0%Q)
                   (default y0 (last stages))) ∧
  (length stages = n → (1 ≤ n)%nat →
   last (test_score (staged_scores n loss stages y0).2)
   = Some (final_loss loss (staged_scores n loss stages y0).2)).
Proof.
  intros Hlen. unfold staged_scores.
  rewrite staged_loop_fits by (rewrite length_replicate; lia). simpl.
  rewrite drop_replicate. split; [done|].
  intros Hn Hpos. rewrite Hn, Nat.sub_diag. simpl. rewrite app_nil_r.
  unfold final_loss. simpl.
  destruct stages as [|yp rest _] using rev_ind; [simpl in *; lia|].
  rewrite map_app. simpl. rewrite !last_snoc. done.
Qed.

Lemma staged_scores_fit_witness :
  staged_scores 3 (λ v : Q, (v * v)%Q) [1%Q; 2%Q] 0%Q =
  (Ok tt, Scores [(1 * 1)%Q; (2 * 2)%Q; 0%Q] 2%Q).
Proof.
  apply (staged_scores_fit 3 (λ v : Q, (v * v)%Q) [1%Q; 2%Q] 0%Q). simpl. lia.
Defined.

(** With more stages than cells, the store of stage number n raises
    IndexError: the first n scores are in place and [y_pred] is left on the
    stage that could not be stored. *)
Theorem staged_scores_overflow {P} (n : nat) (loss : P → Q) (stages : list P)
    (y0 yp : P) :
  stages !! n = Some yp →
  staged_scores n loss stages y0 =
  (Err IndexError, Scores (map loss (take n stages)) yp).
Proof.
  intros Hyp.
  rewrite <- (take_drop n stages) at 1.
  assert (Hlen : length (take n stages) = n).
  { apply length_take_le. apply lookup_lt_Some in Hyp. lia. }
  rewrite (drop_S _ _ _ Hyp).
  unfold staged_scores.
  assert (Happ : ∀ (l1 l2 : list P) i (st : scores P),
            (i + length l1 ≤ length (test_score st))%nat →
            staged_loop loss i (l1 ++ l2) st =
            staged_loop loss (i + length l1) l2
              (staged_loop loss i l1 st).2).
  { induction l1 as [|x l1 IH]; intros l2 i st Hl; simpl in *.
    - by rewrite Nat.add_0_r.
    - rewrite !decide_True by lia.
      rewrite IH by (simpl; rewrite length_insert; lia).
      f_equal. lia. }
  rewrite Happ by (simpl; rewrite length_replicate; lia).
  rewrite staged_loop_fits by (rewrite length_replicate; lia). simpl.
  rewrite length_app, length_map, !length_drop, length_replicate, Hlen.
  rewrite decide_False by lia.
  rewrite drop_replicate, Nat.sub_diag. simpl. by rewrite app_nil_r.
Qed.

Lemma staged_scores_overflow_witness :
  staged_scores 2 (λ v : Q, (v * v)%Q) [1%Q; 2%Q; 3%Q] 0%Q =
  (Err IndexError, Scores [(1 * 1)%Q; (2 * 2)%Q] 3%Q).
Proof.
  exact (staged_scores_overflow 2 (λ v : Q, (v * v)%Q) [1%Q; 2%Q; 3%Q]
           0%Q 3%Q eq_refl).
Defined.

(** * The images of the CNN notebook *)

Lemma table_nth (M : list (list Q)) (r c : nat) :
  length M = r → Forall (λ row, length row = c) M →
  map (λ b, map (λ c0, nth c0 (nth b M []) 0%Q) (seq 0 c)) (seq 0 r) = M.
Proof.
  intros Hr Hc. etrans; [|symmetry; apply (tabulate_nth M [])].
  rewrite Hr. apply map_ext_in. intros b Hb. apply in_seq in Hb.
  etrans; [|symmetry; apply (tabulate_nth (nth b M []) 0%Q)].
  assert (Hlen : length (nth b M []) = c).
  { destruct (lookup_lt_is_Some_2 M b) as [row Hrow]; [lia|].
    rewrite (nth_lookup_Some _ _ _ _ Hrow).
    by apply (Forall_lookup_1 _ _ _ _ Hc Hrow). }
  by rewrite Hlen.
Qed.

Lemma norm_index_outside (i : Z) (n : nat) :
  Z.of_nat n ≤ i ∨ i < - Z.of_nat n → norm_index i n = None.
Proof.
  intros Hi. unfold norm_index.
  destruct (Z.ltb_spec i 0); by rewrite bool_decide_eq_false_2 by lia.
Qed.

(** The cells that load the data: after the division by 255 and the
    appended channel axis, [images[idata, :, :, 0]] is image [idata] of the
    data set with every pixel divided by 255, there is exactly one channel,
    and the index one past the last image raises IndexError. *)
Theorem append_channel_image (images : array3) (n r c idata : nat) :
  wf3 images → shape3 images = (n, r, c) → (idata < n)%nat →
  shape4 (append_channel images) = (n, r, c, 1%nat) ∧
  image_channel0 (append_channel images) (Z.of_nat idata)
  = Ok {| shape2 := (r, c);
          data2 := map (map (λ v, v / 255)%Q) (nth idata (data3 images) []) |} ∧
  image_channel0 (append_channel images) (Z.of_nat idata - Z.of_nat n)
  = image_channel0 (append_channel images) (Z.of_nat idata) ∧
  image_channel0 (append_channel images) (Z.of_nat n) = Err IndexError.
Proof.
  intros [Hlen Hrows] Hshape Hi. rewrite Hshape in Hlen, Hrows. simpl in *.
  assert (Hsh : shape4 (append_channel images) = (n, r, c, 1%nat)).
  { unfold append_channel, transpose_1230, np_array_of, true_divide, map3.
    simpl. by rewrite Hshape. }
  assert (Hat : image_channel0 (append_channel images) (Z.of_nat idata)
    = Ok {| shape2 := (r, c);
            data2 := map (map (λ v, v / 255)%Q)
                         (nth idata (data3 images) []) |}).
  { unfold image_channel0. rewrite Hsh.
    rewrite norm_index_nat by done.
    change (norm_index 0 1) with (Some 0%nat). cbv beta iota.
    do 2 f_equal.
    unfold append_channel, transpose_1230, np_array_of, true_divide, map3.
    simpl. rewrite Hshape. simpl.
    rewrite nth_tabulate by done. rewrite !map_map. simpl.
    destruct (lookup_lt_is_Some_2 (data3 images) idata) as [img Himg]; [lia|].
    rewrite (nth_lookup_Some _ _ _ _ Himg).
    assert (Hm : nth idata (map (map (map (λ v, v / 255)%Q)) (data3 images)) []
                 = map (map (λ v, v / 255)%Q) img).
    { apply nth_lookup_Some. by rewrite list_lookup_fmap, Himg. }
    rewrite Hm.
    pose proof (Forall_lookup_1 _ _ _ _ Hrows Himg) as [Hr Hpx].
    etrans; [|apply (table_nth _ r c)].
    - apply map_ext. intros b. by rewrite map_map.
    - by rewrite length_map.
    - apply Forall_forall. intros row Hin.
      apply list_elem_of_In, in_map_iff in Hin.
      destruct Hin as (row0 & <- & Hin). apply list_elem_of_In in Hin.
      rewrite length_map. rewrite Forall_forall in Hpx. by apply Hpx. }
  split_and!; [done|done| |].
  - unfold image_channel0. rewrite Hsh. unfold norm_index.
    destruct (Z.ltb_spec (Z.of_nat idata - Z.of_nat n) 0); [|lia].
    destruct (Z.ltb_spec (Z.of_nat idata) 0); [lia|].
    by replace (Z.of_nat idata - Z.of_nat n + Z.of_nat n) with (Z.of_nat idata)
      by lia.
  - unfold image_channel0. rewrite Hsh.
    by rewrite norm_index_outside by lia.
Qed.

Lemma append_channel_image_witness :
  shape4 (append_channel (img_of 2 3 3 ramp)) = (2, 3, 3, 1)%nat ∧
  image_channel0 (append_channel (img_of 2 3 3 ramp)) (-1)
  = image_channel0 (append_channel (img_of 2 3 3 ramp)) 1.
Proof.
  assert (Hwf : wf3 (img_of 2 3 3 ramp))
    by (split; [reflexivity | repeat constructor]).
  destruct (append_channel_image (img_of 2 3 3 ramp) 2 3 3 1 Hwf eq_refl)
    as (Hsh & _ & Hneg & _); [lia|].
  split; [exact Hsh | exact Hneg].
Defined.

(** * The predictions of the CNN notebook *)

Lemma argmax_from_spec (l : list Q) (best_i : nat) (best : Q) (i : nat) :
  (argmax_from best_i best i l = best_i ∧ Forall (λ x, x <= best)%Q l) ∨
  (∃ j top, argmax_from best_i best i l = (i + j)%nat ∧
            l !! j = Some top ∧ (best < top)%Q ∧
            (∀ j' x, l !! j' = Some x → (x <= top)%Q) ∧
            (∀ j' x, l !! j' = Some x → (j' < j)%nat → (x < top)%Q)).
Proof.
  revert best_i best i. induction l as [|x l IH]; intros best_i best i.
  { left. by split. }
  simpl. destruct (Qlt_le_dec best x) as [Hlt|Hle].
  - right. destruct (IH i x (S i)) as [[Hk Hall]|(j & top & Hk & Hj & Hx & Hmax & Hfirst)].
    + exists 0%nat, x. split_and!; [by rewrite Hk, Nat.add_0_r|done|done| |].
      * intros [|j'] y Hy; simpl in Hy.
        -- injection Hy as <-. apply Qle_refl.
        -- rewrite Forall_lookup in Hall. by apply (Hall j').
      * intros j' y _ Hj'. lia.
    + exists (S j), top.
      split_and!; [rewrite Hk; lia|done|by apply Qlt_trans with x| |].
      * intros [|j'] y Hy; simpl in Hy.
        -- injection Hy as <-. by apply Qlt_le_weak.
        -- by apply (Hmax j').
      * intros [|j'] y Hy Hj'; simpl in Hy.
        -- by injection Hy as <-.
        -- apply (Hfirst j'); [done|lia].
  - destruct (IH best_i best (S i)) as [[Hk Hall]|(j & top & Hk & Hj & Hx & Hmax & Hfirst)].
    + left. split; [done|]. by constructor.
    + right. exists (S j), top.
      split_and!; [rewrite Hk; lia|done|done| |].
      * intros [|j'] y Hy; simpl in Hy.
        -- injection Hy as <-. apply Qlt_le_weak. by apply Qle_lt_trans with best.
        -- by apply (Hmax j').
      * intros [|j'] y Hy Hj'; simpl in Hy.
        -- injection Hy as <-. by apply Qle_lt_trans with best.
        -- apply (Hfirst j'); [done|lia].
Qed.

Lemma argmax_row_spec (row : list Q) :
  row ≠ [] →
  ∃ top, row !! argmax_row row = Some top ∧
    (∀ j x, row !! j = Some x → (x <= top)%Q) ∧
    (∀ j x, row !! j = Some x → (j < argmax_row row)%nat → (x < top)%Q).
Proof.
  destruct row as [|x l]; [done|]. intros _. simpl.
  destruct (argmax_from_spec l 0 x 1)
    as [[Hk Hall]|(j & top & Hk & Hj & Hx & Hmax & Hfirst)]; rewrite Hk.
  - exists x. split_and!; [done| |intros; lia].
    intros [|j] y Hy; simpl in Hy.
    + injection Hy as <-. apply Qle_refl.
    + rewrite Forall_lookup in Hall. by apply (Hall j).
  - exists top. split_and!; [done| |].
    + intros [|j'] y Hy; simpl in Hy.
      * injection Hy as <-. by apply Qlt_le_weak.
      * by apply (Hmax j').
    + intros [|j'] y Hy Hj'; simpl in Hy.
      * by injection Hy as <-.
      * apply (Hfirst j'); [done|lia].
Qed.

(** [argmax(axis=1)] gives one label per row: the position of the largest
    value of the row, the first one when the largest value occurs several
    times, so a label is always below the row length.  On rows of length 0 it
    raises ValueError. *)
Theorem argmax_axis1_first_maximum (a : array2) (n m : nat) :
  wf2 a → shape2 a = (n, m) →
  (m = 0%nat → argmax_axis1 a = PyRaise PyValueError) ∧
  ((0 < m)%nat →
   ∃ labels, argmax_axis1 a = PyOk labels ∧ length labels = n ∧
     Forall (λ v, 0 ≤ v < Z.of_nat m) labels ∧
     ∀ i row, data2 a !! i = Some row →
       ∃ k top, labels !! i = Some (Z.of_nat k) ∧ row !! k = Some top ∧
         (∀ j x, row !! j = Some x → (x <= top)%Q) ∧
         (∀ j x, row !! j = Some x → (j < k)%nat → (x < top)%Q)).
Proof.
  intros [Hlen Hrows] Hshape. rewrite Hshape in Hlen, Hrows. simpl in *.
  unfold argmax_axis1. rewrite Hshape. simpl. split.
  { intros ->. by rewrite decide_True. }
  intros Hm. rewrite decide_False by lia.
  assert (Hrow : ∀ i row, data2 a !! i = Some row →
            ∃ top, row !! argmax_row row = Some top ∧
              (∀ j x, row !! j = Some x → (x <= top)%Q) ∧
              (∀ j x, row !! j = Some x →
                 (j < argmax_row row)%nat → (x < top)%Q)).
  { intros i row Hi. apply argmax_row_spec.
    pose proof (Forall_lookup_1 _ _ _ _ Hrows Hi) as Hl. simpl in Hl.
    intros ->. simpl in Hl. lia. }
  eexists. split_and!; [done|by rewrite length_map| |].
  - apply Forall_forall. intros v Hv.
    apply list_elem_of_In, in_map_iff in Hv. destruct Hv as (row & <- & Hin).
    apply list_elem_of_In, list_elem_of_lookup in Hin. destruct Hin as [i Hi].
    destruct (Hrow i row Hi) as (top & Htop & _).
    apply lookup_lt_Some in Htop.
    pose proof (Forall_lookup_1 _ _ _ _ Hrows Hi) as Hl. simpl in Hl. lia.
  - intros i row Hi. destruct (Hrow i row Hi) as (top & Htop & Hmax & Hfirst).
    exists (argmax_row row), top.
    split_and!; [by rewrite list_lookup_fmap, Hi|done|done|done].
Qed.

Lemma argmax_axis1_first_maximum_witness :
  ∃ labels,
    argmax_axis1 {| shape2 := (2, 3)%nat;
                    data2 := [[0.1; 0.7; 0.2]; [0.5; 0.5; 0]]%Q |}
    = PyOk labels ∧ length labels = 2%nat ∧
    Forall (λ v, 0 ≤ v < 3) labels.
Proof.
  destruct (argmax_axis1_first_maximum
              {| shape2 := (2, 3)%nat;
                 data2 := [[0.1; 0.7; 0.2]; [0.5; 0.5; 0]]%Q |} 2 3)
    as [_ H]; [split; [reflexivity | repeat constructor] | reflexivity |].
  destruct H as (labels & Heq & Hlen & Hrange & _); [lia|].
  exists labels. split_and!; [exact Heq | exact Hlen | exact Hrange].
Defined.

(** ** The wrong predictions *)

Lemma elem_of_where_from (c : list bool) (i k : nat) :
  k ∈ where_from i c ↔ ∃ j, k = (i + j)%nat ∧ c !! j = Some true.
Proof.
  revert i. induction c as [|b c IH]; intros i; simpl.
  { split; [by intros ?%elem_of_nil | by intros (j & _ & ?)]. }
  assert (Hrest : k ∈ where_from (S i) c ↔
                  ∃ j, k = (i + S j)%nat ∧ c !! j = Some true).
  { rewrite IH. split; intros (j & -> & Hj); exists j; (split; [lia|done]). }
  destruct b.
  - rewrite elem_of_cons, Hrest. split.
    + intros [->|(j & -> & Hj)].
      * exists 0%nat. split; [lia|done].
      * by exists (S j).
    + intros ([|j] & -> & Hj); [left; lia|right; by exists j].
  - rewrite Hrest. split.
    + intros (j & -> & Hj). by exists (S j).
    + intros ([|j] & -> & Hj); [done|by exists j].
Qed.

Lemma where_from_increasing (c : list bool) (i a b x y : nat) :
  where_from i c !! a = Some x → where_from i c !! b = Some y →
  (a < b)%nat → (x < y)%nat.
Proof.
  revert i a b. induction c as [|h c IH]; intros i a b Ha Hb Hab; [done|].
  simpl in Ha, Hb. destruct h; [|by apply (IH (S i) a b)].
  destruct b as [|b]; [lia|]. simpl in Hb. destruct a as [|a].
  - injection Ha as <-.
    apply list_elem_of_lookup_2, elem_of_where_from in Hb.
    destruct Hb as (j & -> & _). lia.
  - simpl in Ha. apply (IH (S i) a b); [done|done|lia].
Qed.

Lemma length_where_from (c : list bool) (i : nat) :
  (length (where_from i c) ≤ length c)%nat.
Proof.
  revert i. induction c as [|[] c IH]; intros i; simpl;
    [lia|specialize (IH (S i)); lia|specialize (IH (S i)); lia].
Qed.

Lemma not_equal_same_length (a b : list Z) :
  length a = length b →
  not_equal a b = PyOk (zip_with (λ x y, negb (x =? y)) a b).
Proof. intros H. unfold not_equal. by rewrite decide_True. Qed.

Lemma wrong_indices_elem (pred_lables test_labels : list Z) (i : nat) :
  i ∈ where_from 0 (zip_with (λ x y, negb (x =? y)) pred_lables test_labels) ↔
  ∃ p t, pred_lables !! i = Some p ∧ test_labels !! i = Some t ∧ p ≠ t.
Proof.
  rewrite elem_of_where_from. split.
  - intros (j & -> & Hj). simpl.
    apply lookup_zip_with_Some in Hj. destruct Hj as (p & t & Hne & Hp & Ht).
    exists p, t. split_and!; [done|done|].
    intros ->. by rewrite Z.eqb_refl in Hne.
  - intros (p & t & Hp & Ht & Hne). exists i. split; [done|].
    apply lookup_zip_with_Some. exists p, t. split_and!; [|done|done].
    symmetry. apply negb_true_iff, Z.eqb_neq. done.
Qed.

(** [wrong] lists exactly the positions where the predicted label differs
    from the test label, each once and in increasing order; it is empty
    exactly when every prediction is right. *)
Theorem wrong_indices_exact (pred_lables test_labels : list Z) :
  length pred_lables = length test_labels →
  ∃ wrong, wrong_indices pred_lables test_labels = PyOk wrong ∧
    (∀ i, i ∈ wrong ↔
          ∃ p t, pred_lables !! i = Some p ∧ test_labels !! i = Some t ∧
                 p ≠ t) ∧
    (∀ a b i j, wrong !! a = Some i → wrong !! b = Some j →
                (a < b)%nat → (i < j)%nat) ∧
    (length wrong ≤ length test_labels)%nat ∧
    (wrong = [] ↔ pred_lables = test_labels).
Proof.
  intros Hlen. unfold wrong_indices.
  rewrite not_equal_same_length by done. simpl.
  eexists. split; [done|]. split_and!.
  - apply wrong_indices_elem.
  - intros a b i j. apply where_from_increasing.
  - etrans; [apply length_where_from|].
    rewrite length_zip_with. lia.
  - split.
    + intros Hnil. apply list_eq_same_length with (length test_labels);
        [done|done|].
      intros i p t _ Hp Ht. destruct (decide (p = t)) as [|Hne]; [done|].
      assert (Hin : i ∈ where_from 0
                (zip_with (λ x y, negb (x =? y)) pred_lables test_labels)).
      { apply wrong_indices_elem. by exists p, t. }
      rewrite Hnil in Hin. by apply elem_of_nil in Hin.
    + intros ->. apply elem_of_nil_inv. intros i Hi.
      apply wrong_indices_elem in Hi. destruct Hi as (p & t & Hp & Ht & Hne).
      congruence.
Qed.

Lemma wrong_indices_exact_witness :
  ∃ wrong, wrong_indices [9; 2; 1; 1; 0] [9; 2; 1; 6; 6] = PyOk wrong ∧
    (length wrong ≤ 5)%nat.
Proof.
  destruct (wrong_indices_exact [9; 2; 1; 1; 0] [9; 2; 1; 6; 6] eq_refl)
    as (wrong & Heq & _ & _ & Hlen & _).
  exists wrong. split; [exact Heq | exact Hlen].
Defined.

Lemma py_mapM_Forall2 {A B} (f : A → py_result B) (l : list A) :
  Forall (λ x, ∃ y, f x = PyOk y) l →
  ∃ ys, py_mapM f l = PyOk ys ∧ Forall2 (λ x y, f x = PyOk y) l ys.
Proof.
  induction 1 as [|x l [y Hy] _ (ys & Hys & Hall)]; simpl.
  { exists []. by split. }
  exists (y :: ys). rewrite Hy, Hys. simpl. split; [done|by constructor].
Qed.

Lemma py_slice_prefix {A} (l : list A) (n : Z) :
  0 ≤ n → py_slice 0 n l = take (Z.to_nat n) l.
Proof.
  intros Hn. unfold py_slice, slice_start, slice_len, adjust_index.
  destruct (Z.ltb_spec 0 0); [lia|]. destruct (Z.ltb_spec n 0); [lia|].
  replace (Z.to_nat (0 `min` Z.of_nat (length l))) with 0%nat by lia.
  rewrite drop_0.
  destruct (decide (n ≤ Z.of_nat (length l))).
  - f_equal. lia.
  - rewrite !take_ge; [done|lia|lia].
Qed.

Lemma index_nat {A} (l : list A) (i : nat) (x : A) :
  l !! i = Some x → index l (Z.of_nat i) = PyOk x.
Proof.
  intros Hi. unfold index.
  rewrite norm_index_nat by (by apply lookup_lt_Some in Hi). by rewrite Hi.
Qed.

Lemma class_label_inside (labels : list Z) (idata : nat) (v : Z) :
  labels !! idata = Some v → 0 ≤ v < 10 →
  ∃ name, string_labels !! Z.to_nat v = Some name ∧
    class_label labels (Z.of_nat idata)
    = PyOk (format_d v +:+ ": " +:+ name)%string.
Proof.
  intros Hv Hrange. unfold class_label.
  rewrite (index_nat _ _ _ Hv). simpl.
  destruct (lookup_lt_is_Some_2 string_labels (Z.to_nat v)) as [name Hname].
  { simpl. lia. }
  exists name. split; [done|].
  rewrite <- (Z2Nat.id v) at 1 by lia.
  by rewrite (index_nat _ _ _ Hname).
Qed.

(** The figure of the wrong predictions: with labels in 0..9 and one test
    image per label the cell raises nothing and draws min(32, number of
    wrong predictions) panels.  Panel number q + 1 shows the q-th wrong test
    image, the true class below it and the differing predicted class,
    marked (X) and in red, as its title. *)
Theorem plot_wrong_panels (test_images : array4)
    (test_labels pred_lables : list Z) (n r c ch : nat) :
  shape4 test_images = (n, r, c, ch) → (0 < ch)%nat →
  length test_labels = n → length pred_lables = n →
  Forall (λ v, 0 ≤ v < 10) test_labels →
  Forall (λ v, 0 ≤ v < 10) pred_lables →
  ∃ wrong panels,
    wrong_indices pred_lables test_labels = PyOk wrong ∧
    plot_wrong test_images test_labels pred_lables = PyOk panels ∧
    length panels = (32 `min` length wrong)%nat ∧
    ∀ iplot p, panels !! iplot = Some p →
      panel_number p = Z.of_nat iplot + 1 ∧ 1 ≤ panel_number p ≤ 32 ∧
      ∃ idata t q tname qname,
        wrong !! iplot = Some idata ∧
        test_labels !! idata = Some t ∧ pred_lables !! idata = Some q ∧
        t ≠ q ∧
        string_labels !! Z.to_nat t = Some tname ∧
        string_labels !! Z.to_nat q = Some qname ∧
        panel_xlabel p = (format_d t +:+ ": " +:+ tname)%string ∧
        panel_title p = ((format_d q +:+ ": " +:+ qname) +:+ " (X)")%string ∧
        panel_title_color p = "r"%string ∧
        image_channel0 test_images (Z.of_nat idata) = Ok (panel_image p).
Proof.
  intros Hshape Hch Htest Hpred Htr Hpr.
  unfold plot_wrong, wrong_indices.
  rewrite not_equal_same_length by congruence. simpl.
  set (wrong := where_from 0
         (zip_with (λ x y, negb (x =? y)) pred_lables test_labels)).
  rewrite py_slice_prefix by lia. change (Z.to_nat (4 * 8)) with 32%nat.
  set (body := λ '(iplot, idata),
         wrong_panel test_images test_labels pred_lables 4 8 iplot idata).
  set (todo := imap (λ iplot idata : nat, (iplot, idata)) (take 32 wrong)).
  assert (Htodo : ∀ k iplot idata, todo !! k = Some (iplot, idata) →
            iplot = k ∧ (k < 32)%nat ∧ wrong !! k = Some idata).
  { intros k iplot idata Hk. unfold todo in Hk.
    rewrite list_lookup_imap in Hk.
    destruct (take 32 wrong !! k) as [x|] eqn:Hx; [|done].
    simpl in Hk. injection Hk as <- <-.
    pose proof (lookup_lt_Some _ _ _ Hx) as Hlt. rewrite length_take in Hlt.
    apply lookup_take_Some in Hx. split_and!; [done|lia|by destruct Hx]. }
  assert (Hbody : ∀ k iplot idata, todo !! k = Some (iplot, idata) →
            ∃ t q tname qname image,
              test_labels !! idata = Some t ∧ pred_lables !! idata = Some q ∧
              t ≠ q ∧
              string_labels !! Z.to_nat t = Some tname ∧
              string_labels !! Z.to_nat q = Some qname ∧
              image_channel0 test_images (Z.of_nat idata) = Ok image ∧
              body (iplot, idata) =
              PyOk (Panel (Z.of_nat k + 1) image
                      (format_d t +:+ ": " +:+ tname)
                      ((format_d q +:+ ": " +:+ qname) +:+ " (X)") "r")).
  { intros k iplot idata Hk. destruct (Htodo _ _ _ Hk) as (-> & Hlt & Hw).
    apply list_elem_of_lookup_2, wrong_indices_elem in Hw.
    destruct Hw as (q & t & Hq & Ht & Hne).
    destruct (class_label_inside test_labels idata t Ht) as (tname & Htn & Hl1).
    { by apply (Forall_lookup_1 _ _ _ _ Htr Ht). }
    destruct (class_label_inside pred_lables idata q Hq) as (qname & Hqn & Hl2).
    { by apply (Forall_lookup_1 _ _ _ _ Hpr Hq). }
    assert (Hidata : (idata < n)%nat).
    { apply lookup_lt_Some in Ht. lia. }
    assert (Himg : ∃ image,
              image_channel0 test_images (Z.of_nat idata) = Ok image).
    { unfold image_channel0. rewrite Hshape.
      rewrite norm_index_nat by done.
      change 0 with (Z.of_nat 0). rewrite norm_index_nat by done.
      by eexists. }
    destruct Himg as [image Himg].
    exists t, q, tname, qname, image.
    split_and!; [done|done|congruence|done|done|done|].
    unfold body, wrong_panel. rewrite Hl1. simpl. rewrite Hl2. simpl.
    rewrite Himg. simpl. unfold subplot_image.
    by rewrite bool_decide_eq_true_2 by lia. }
  destruct (py_mapM_Forall2 body todo) as (panels & Hrun & Hall).
  { apply Forall_lookup. intros k [iplot idata] Hk.
    destruct (Hbody _ _ _ Hk) as (t & q & tn & qn & image & H).
    eexists. apply H. }
  assert (Hlen : length panels = (32 `min` length wrong)%nat).
  { rewrite <- (Forall2_length _ _ _ Hall). unfold todo.
    by rewrite length_imap, length_take. }
  exists wrong, panels. split; [done|]. split; [done|]. split; [exact Hlen|].
  - intros k p Hp.
    destruct (Forall2_lookup_r _ _ _ _ _ Hall Hp) as ([iplot idata] & Hk & Hf).
    destruct (Hbody _ _ _ Hk)
      as (t & q & tn & qn & image & Ht & Hq & Hne & Htn & Hqn & Himg & Hb).
    destruct (Htodo _ _ _ Hk) as (-> & Hlt & Hw).
    rewrite Hb in Hf. injection Hf as <-. simpl.
    split_and!; [done|lia|lia|].
    exists idata, t, q, tn, qn. by split_and!.
Qed.

Lemma plot_wrong_panels_witness :
  ∃ wrong panels,
    wrong_indices [9; 2; 1] [9; 2; 6] = PyOk wrong ∧
    plot_wrong (append_channel (img_of 3 2 2 ramp)) [9; 2; 6] [9; 2; 1]
    = PyOk panels ∧
    length panels = (32 `min` length wrong)%nat.
Proof.
  destruct (plot_wrong_panels (append_channel (img_of 3 2 2 ramp))
              [9; 2; 6] [9; 2; 1] 3 2 2 1 eq_refl)
    as (wrong & panels & Hw & Hp & Hlen & _);
    [lia | reflexivity | reflexivity
     | repeat constructor; lia | repeat constructor; lia |].
  exists wrong, panels. split_and!; [exact Hw | exact Hp | exact Hlen].
Defined.

(** ** The first training images *)

Lemma py_mapM_raise {A B} (f : A → py_result B) (l1 l2 : list A) (x : A) e :
  Forall (λ x, ∃ y, f x = PyOk y) l1 → f x = PyRaise e →
  py_mapM f (l1 ++ x :: l2) = PyRaise e.
Proof.
  intros Hok Hx. induction Hok as [|a l [y Hy] _ IH]; simpl.
  - by rewrite Hx.
  - by rewrite Hy, IH.
Qed.

Lemma class_label_outside (labels : list Z) (idata : Z) :
  Z.of_nat (length labels) ≤ idata →
  class_label labels idata = PyRaise PyIndexError.
Proof.
  intros H. unfold class_label, index.
  by rewrite norm_index_outside by lia.
Qed.

Lemma train_panel_inside (train_images : array4) (train_labels : list Z)
    (n r c ch : nat) (k : nat) :
  shape4 train_images = (n, r, c, ch) → (0 < ch)%nat →
  length train_labels = n → Forall (λ v, 0 ≤ v < 10) train_labels →
  (k < n)%nat → (k < 32)%nat →
  ∃ t name image,
    train_labels !! k = Some t ∧
    string_labels !! Z.to_nat t = Some name ∧
    image_channel0 train_images (Z.of_nat k) = Ok image ∧
    train_panel train_images train_labels 4 8 (Z.of_nat k)
    = PyOk (Panel (Z.of_nat k + 1) image (format_d t +:+ ": " +:+ name) "" "r").
Proof.
  intros Hshape Hch Hlen Hrange Hk Hk32.
  destruct (lookup_lt_is_Some_2 train_labels k) as [t Ht]; [lia|].
  destruct (class_label_inside train_labels k t Ht) as (name & Hname & Hl).
  { by apply (Forall_lookup_1 _ _ _ _ Hrange Ht). }
  assert (Himg : ∃ image,
            image_channel0 train_images (Z.of_nat k) = Ok image).
  { unfold image_channel0. rewrite Hshape.
    rewrite norm_index_nat by done.
    change 0 with (Z.of_nat 0). rewrite norm_index_nat by done.
    by eexists. }
  destruct Himg as [image Himg].
  exists t, name, image. split_and!; [done|done|done|].
  unfold train_panel. rewrite Hl. simpl. rewrite Himg. simpl.
  unfold subplot_image. by rewrite bool_decide_eq_true_2 by lia.
Qed.

(** The figure of the first 32 training images needs 32 of them: with
    fewer images and labels the loop raises IndexError at the first missing
    one; with 32 or more it draws panels 1 to 32, panel k + 1 showing image
    k over its class name and no title. *)
Theorem plot_train_panels (train_images : array4) (train_labels : list Z)
    (n r c ch : nat) :
  shape4 train_images = (n, r, c, ch) → (0 < ch)%nat →
  length train_labels = n → Forall (λ v, 0 ≤ v < 10) train_labels →
  ((n < 32)%nat →
   plot_train train_images train_labels = PyRaise PyIndexError) ∧
  ((32 ≤ n)%nat →
   ∃ panels, plot_train train_images train_labels = PyOk panels ∧
     length panels = 32%nat ∧
     ∀ k p, panels !! k = Some p →
       panel_number p = Z.of_nat k + 1 ∧ panel_title p = ""%string ∧
       image_channel0 train_images (Z.of_nat k) = Ok (panel_image p) ∧
       ∃ t name, train_labels !! k = Some t ∧
         string_labels !! Z.to_nat t = Some name ∧
         panel_xlabel p = (format_d t +:+ ": " +:+ name)%string).
Proof.
  intros Hshape Hch Hlen Hrange. unfold plot_train.
  change (arange (4 * 8)) with (map Z.of_nat (seq 0 32)).
  set (f := train_panel train_images train_labels 4 8).
  split.
  - intros Hn.
    assert (Hsplit : seq 0 32 = seq 0 n ++ n :: seq (S n) (32 - S n)).
    { replace 32%nat with (n + S (32 - S n))%nat at 1 by lia.
      by rewrite seq_app. }
    rewrite Hsplit, map_app. simpl map. apply py_mapM_raise.
    + apply Forall_forall. intros z Hz.
      apply list_elem_of_In, in_map_iff in Hz. destruct Hz as (k & <- & Hk).
      apply in_seq in Hk.
      destruct (train_panel_inside train_images train_labels n r c ch k)
        as (t & name & image & _ & _ & _ & Hp); [done|done|done|done|lia|lia|].
      eexists. exact Hp.
    + unfold f, train_panel. by rewrite class_label_outside by lia.
  - intros Hn.
    destruct (py_mapM_Forall2 f (map Z.of_nat (seq 0 32)))
      as (panels & Hrun & Hall).
    { apply Forall_forall. intros z Hz.
      apply list_elem_of_In, in_map_iff in Hz. destruct Hz as (k & <- & Hk).
      apply in_seq in Hk.
      destruct (train_panel_inside train_images train_labels n r c ch k)
        as (t & name & image & _ & _ & _ & Hp); [done|done|done|done|lia|lia|].
      eexists. exact Hp. }
    assert (Hlen32 : length panels = 32%nat).
    { by rewrite <- (Forall2_length _ _ _ Hall), length_map, length_seq. }
    exists panels. split; [exact Hrun|]. split; [exact Hlen32|].
    intros k p Hp.
    destruct (Forall2_lookup_r _ _ _ _ _ Hall Hp) as (z & Hz & Hf).
    assert (Hk : (k < 32)%nat) by (apply lookup_lt_Some in Hp; lia).
    rewrite list_lookup_fmap, lookup_seq_lt in Hz by done.
    simpl in Hz. injection Hz as <-.
    destruct (train_panel_inside train_images train_labels n r c ch k)
      as (t & name & image & Ht & Hname & Himg & Hpanel);
      [done|done|done|done|lia|lia|].
    unfold f in Hf. rewrite Hpanel in Hf. injection Hf as <-. simpl.
    split_and!; [done|done|done|]. by exists t, name.
Qed.

Lemma plot_train_panels_witness :
  plot_train (append_channel (img_of 3 2 2 ramp)) [9; 2; 6]
  = PyRaise PyIndexError.
Proof.
  destruct (plot_train_panels (append_channel (img_of 3 2 2 ramp)) [9; 2; 6]
              3 2 2 1 eq_refl) as [Hshort _];
    [lia | reflexivity | repeat constructor; lia |].
  apply Hshort. lia.
Defined.

(** * The decision regions of the classification notebook *)

Lemma zip_meshgrid (x y : list Q) :
  zip (concat (replicate (length y) x))
      (concat (map (λ v, replicate (length x) v) y))
  = concat (map (λ v, map (λ u, (u, v)) x) y).
Proof.
  induction y as [|v y IH]; [done|]. simpl.
  rewrite zip_with_app by (by rewrite length_replicate).
  f_equal; [|exact IH].
  clear. induction x as [|u x IH]; [done|]. simpl. by f_equal.
Qed.

Lemma length_concat_rows {A} (rows : list (list A)) (n : nat) :
  Forall (λ r, length r = n) rows →
  length (concat rows) = (length rows * n)%nat.
Proof.
  induction 1 as [|r rows Hr _ IH]; [done|].
  simpl. rewrite length_app, IH, Hr. lia.
Qed.

Lemma reshape_concat {A} (rows : list (list A)) (n : nat) :
  Forall (λ r, length r = n) rows →
  map (λ i, take n (drop (i * n) (concat rows))) (seq 0 (length rows)) = rows.
Proof.
  induction 1 as [|r rows Hr _ IH]; [done|].
  simpl length. rewrite <- cons_seq, <- fmap_S_seq. simpl.
  rewrite drop_0, take_app_length' by done. f_equal.
  etrans; [|exact IH]. rewrite <- list_fmap_compose.
  apply map_ext. intros i. simpl.
  replace (n + i * n)%nat with (length r + i * n)%nat by lia.
  by rewrite drop_app_add.
Qed.

(** [visualize_classifier] never fails on its grid, and [Z] has one row per
    y sample and one column per x sample: row i, column j holds the label
    of the point (x_j, y_i), the point that [xx] and [yy] hold there. *)
Theorem decision_grid_orientation {C} (classify : Q * Q → C)
    (xlim ylim : Q * Q) :
  ∃ xx yy Z,
    decision_grid classify xlim ylim = PyOk (xx, yy, Z) ∧
    Z = map (λ v, map (λ u, classify (u, v)) (linspace xlim.1 xlim.2 200))
            (linspace ylim.1 ylim.2 200) ∧
    ∀ i j u v,
      linspace ylim.1 ylim.2 200 !! i = Some v →
      linspace xlim.1 xlim.2 200 !! j = Some u →
      data2 xx !! i ≫= (.!! j) = Some u ∧
      data2 yy !! i ≫= (.!! j) = Some v ∧
      Z !! i ≫= (.!! j) = Some (classify (u, v)).
Proof.
  unfold decision_grid.
  generalize (linspace xlim.1 xlim.2 200) (linspace ylim.1 ylim.2 200).
  intros xs ys. unfold meshgrid, ravel, c_. simpl.
  pose proof (zip_meshgrid xs ys) as Hzip.
  assert (Hrows : Forall (λ r : list C, length r = length xs)
            (map (λ v, map (λ u, classify (u, v)) xs) ys)).
  { apply Forall_forall. intros r Hr.
    apply list_elem_of_In, in_map_iff in Hr. destruct Hr as (v & <- & _).
    by rewrite length_map. }
  rewrite decide_True.
  2:{ rewrite (length_concat_rows _ (length xs)).
      - rewrite (length_concat_rows _ (length xs)).
        + by rewrite length_replicate, length_map.
        + apply Forall_forall. intros r Hr.
          apply list_elem_of_In, in_map_iff in Hr. destruct Hr as (v & <- & _).
          by rewrite length_replicate.
      - by apply Forall_replicate. }
  simpl. rewrite Hzip. unfold reshape. simpl.
  assert (Hmap : map classify (concat (map (λ v, map (λ u, (u, v)) xs) ys))
                 = concat (map (λ v, map (λ u, classify (u, v)) xs) ys)).
  { clear. induction ys as [|v ys IH]; [done|].
    simpl. rewrite map_app, IH. f_equal. by rewrite map_map. }
  rewrite Hmap. rewrite decide_True.
  2:{ rewrite (length_concat_rows _ (length xs)) by done.
      by rewrite length_map. }
  simpl. pose proof (reshape_concat _ _ Hrows) as Hre.
  rewrite length_map in Hre. rewrite Hre.
  do 3 eexists. split; [done|]. split; [done|].
  intros i j u v Hv Hu. simpl. split_and!.
  - rewrite lookup_replicate_2 by (by apply lookup_lt_Some in Hv). done.
  - rewrite list_lookup_fmap, Hv. simpl.
    apply lookup_replicate_2. by apply lookup_lt_Some in Hu.
  - rewrite list_lookup_fmap, Hv. simpl. by rewrite list_lookup_fmap, Hu.
Qed.

Lemma inject_Z_nonzero (d : Z) : (0 < d)%Z → ¬ (inject_Z d == 0)%Q.
Proof. intros Hd Heq. unfold Qeq, inject_Z in Heq. simpl in Heq. lia. Qed.

(** [np.linspace] with at least two samples: [num] evenly spaced values,
    sample i at start + i (stop - start) / (num - 1), and the last sample
    is [stop] itself, not a rounded sum. *)
Theorem linspace_endpoints (start stop : Q) (num : nat) :
  (2 ≤ num)%nat →
  length (linspace start stop num) = num ∧
  last (linspace start stop num) = Some stop ∧
  ∀ i, (i < num)%nat →
    ∃ v, linspace start stop num !! i = Some v ∧
      (v == start + inject_Z (Z.of_nat i) * (stop - start)
                    / inject_Z (Z.of_nat num - 1))%Q.
Proof.
  intros Hnum. unfold linspace.
  destruct (Z.ltb_spec 0 (Z.of_nat num - 1)) as [Hdiv|]; [|lia].
  destruct (Z.ltb_spec 1 (Z.of_nat num)); [|lia].
  pose proof (inject_Z_nonzero _ Hdiv) as Hnz.
  set (d := inject_Z (Z.of_nat num - 1)) in *.
  set (samples := map (λ v, v + start)%Q
         (if Qeq_bool ((stop - start) / d) 0
          then map (λ v, (v / d * (stop - start))%Q)
                   (map (λ i, inject_Z (Z.of_nat i)) (seq 0 num))
          else map (λ v, (v * ((stop - start) / d))%Q)
                   (map (λ i, inject_Z (Z.of_nat i)) (seq 0 num)))).
  assert (Hlen : length samples = num).
  { unfold samples. destruct (Qeq_bool _ _);
      by rewrite !length_map, length_seq. }
  assert (Hsample : ∀ i, (i < num)%nat → ∃ v, samples !! i = Some v ∧
            (v == start + inject_Z (Z.of_nat i) * (stop - start) / d)%Q).
  { intros i Hi. unfold samples. destruct (Qeq_bool _ _);
      rewrite !list_lookup_fmap, lookup_seq_lt by done; simpl;
      eexists; (split; [done|]); field; exact Hnz. }
  split_and!.
  - by rewrite length_insert.
  - rewrite last_lookup, length_insert, Hlen.
    replace (Nat.pred num) with (num - 1)%nat by lia.
    apply list_lookup_insert_eq. lia.
  - intros i Hi. destruct (decide (i = num - 1)%nat) as [->|Hne].
    + exists stop. split; [apply list_lookup_insert_eq; lia|].
      replace (inject_Z (Z.of_nat (num - 1))) with d
        by (unfold d; f_equal; lia).
      field. exact Hnz.
    + rewrite list_lookup_insert_ne by done. by apply Hsample.
Qed.

Lemma linspace_endpoints_witness :
  length (linspace (-1) 3 5) = 5%nat ∧ last (linspace (-1) 3 5) = Some 3%Q.
Proof.
  destruct (linspace_endpoints (-1) 3 5) as (Hlen & Hlast & _); [lia|].
  split; [exact Hlen | exact Hlast].
Defined.
